(** * Verification of the authentication form (src/pages/auth/AuthPage.tsx)

    The development embeds the validators, the password strength scorer, the
    availability checker and the submit workflow of the authentication page,
    and proves the properties its specification states about them.

    Strings are JavaScript strings: sequences of UTF-16 code units.  Regular
    expression literals are given their meaning by a small matcher (Brzozowski
    derivatives), proved equivalent to the usual declarative semantics.
    Calls to the identity/data service, to the dialog library and to the
    React state setters are events of a program tree; a handler answers
    them and records the trace.  The second part covers the rest of the
    page: editing a field, the whole of [validateForm], the outcomes of a
    submission, social sign-in, the session listener, and the scroll helper
    of the landing page. *)

From Stdlib Require Import NArith List Ascii String Bool Lia.
From stdpp Require Import gmap strings list fin_maps.

Set Implicit Arguments.
#[local] Open Scope N_scope.
#[local] Open Scope list_scope.

(** ** JavaScript strings *)

(** A string is the list of its UTF-16 code units; [s.length] is the length
    of the list. *)
Abbreviation jsstring := (list N).

(** A string literal of the source (ASCII only). *)
Fixpoint lit (s : string) : jsstring :=
  match s with
  | EmptyString => []
  | String a r => N_of_ascii a :: lit r
  end.

Arguments lit : simpl never.

(** The code unit of an ASCII character. *)
Definition cu (a : ascii) : N := N_of_ascii a.

(** Strict equality [a === b] on strings. *)
Fixpoint str_eqb (a b : jsstring) : bool :=
  match a, b with
  | [], [] => true
  | x :: a', y :: b' => (x =? y) && str_eqb a' b'
  | _, _ => false
  end.

(** Truthiness of a string: only the empty string is falsy. *)
Definition truthy (s : jsstring) : bool :=
  match s with
  | [] => false
  | _ :: _ => true
  end.

(** [a || b] on strings. *)
Definition or_else (a b : jsstring) : jsstring :=
  if truthy a then a else b.

(** ** Character classes of the regular expressions in the source *)

Definition in_range (lo hi c : N) : bool := (lo <=? c) && (c <=? hi).

(** [\s]: ECMAScript WhiteSpace and LineTerminator code points. *)
Definition is_space (c : N) : bool :=
  in_range 0x09 0x0D c
  || (c =? 0x20) || (c =? 0xA0) || (c =? 0x1680)
  || in_range 0x2000 0x200A c
  || (c =? 0x2028) || (c =? 0x2029) || (c =? 0x202F) || (c =? 0x205F)
  || (c =? 0x3000) || (c =? 0xFEFF).

(** [\d] *)
Definition is_digit (c : N) : bool := in_range (cu "0") (cu "9") c.

(** [[1-9]] *)
Definition is_digit_1_9 (c : N) : bool := in_range (cu "1") (cu "9") c.

(** [[A-Z]] *)
Definition is_upper (c : N) : bool := in_range (cu "A") (cu "Z") c.

(** [[a-z]] *)
Definition is_lower (c : N) : bool := in_range (cu "a") (cu "z") c.

(** The members of the class of special characters in the source: the
    punctuation below and the double quote (code unit 34). *)
Definition special_chars : list N :=
  lit "!@#$%^&*(),.?" ++ [34] ++ lit ":{}|<>".

Definition is_special (c : N) : bool := existsb (N.eqb c) special_chars.

(** [[^\s@]] *)
Definition not_space_at (c : N) : bool := negb (is_space c || (c =? cu "@")).

(** ** Regular expressions *)

Inductive regex : Type :=
| Void
| Eps
| Class (p : N -> bool)
| Cat (a b : regex)
| Alt (a b : regex)
| Star (a : regex).

(** A literal character. *)
Definition Chr (a : ascii) : regex := Class (N.eqb (cu a)).
(** [r+] *)
Definition Plus (r : regex) : regex := Cat r (Star r).
(** [r?] *)
Definition Opt (r : regex) : regex := Alt r Eps.
(** [r{n}] *)
Fixpoint Power (n : nat) (r : regex) : regex :=
  match n with
  | O => Eps
  | S n' => Cat r (Power n' r)
  end.
(** [r{lo,hi}] *)
Definition Repeat (lo hi : nat) (r : regex) : regex :=
  Cat (Power lo r) (Power (hi - lo) (Opt r)).
(** Any code unit: used for the positions a search may skip. *)
Definition AnyUnit : regex := Class (fun _ => true).

Fixpoint nullable (r : regex) : bool :=
  match r with
  | Void => false
  | Eps => true
  | Class _ => false
  | Cat a b => nullable a && nullable b
  | Alt a b => nullable a || nullable b
  | Star _ => true
  end.

Fixpoint deriv (c : N) (r : regex) : regex :=
  match r with
  | Void => Void
  | Eps => Void
  | Class p => if p c then Eps else Void
  | Cat a b =>
      if nullable a then Alt (Cat (deriv c a) b) (deriv c b)
      else Cat (deriv c a) b
  | Alt a b => Alt (deriv c a) (deriv c b)
  | Star a => Cat (deriv c a) (Star a)
  end.

Fixpoint matches (r : regex) (s : jsstring) : bool :=
  match s with
  | [] => nullable r
  | c :: s' => matches (deriv c r) s'
  end.

(** The declarative meaning of a regular expression. *)
Inductive lang : regex -> jsstring -> Prop :=
| LEps : lang Eps []
| LClass p c : p c = true -> lang (Class p) [c]
| LCat a b s t : lang a s -> lang b t -> lang (Cat a b) (s ++ t)
| LAltL a b s : lang a s -> lang (Alt a b) s
| LAltR a b s : lang b s -> lang (Alt a b) s
| LStarNil a : lang (Star a) []
| LStarApp a s t : lang a s -> lang (Star a) t -> lang (Star a) (s ++ t).

(** A regular expression literal without flags: a body, anchored or not at
    each end.  [test] tells whether some substring (the whole string, between
    anchors) matches. *)
Record pattern : Type := {
  anchor_start : bool;
  body : regex;
  anchor_end : bool
}.

Definition test (p : pattern) (s : jsstring) : bool :=
  matches
    (Cat (if anchor_start p then Eps else Star AnyUnit)
         (Cat (body p) (if anchor_end p then Eps else Star AnyUnit)))
    s.

(** [s.replace(/\s/g, "")]: every code unit of the class is removed. *)
Definition replace_spaces (s : jsstring) : jsstring :=
  List.filter (fun c => negb (is_space c)) s.

(** ** Field validators *)

(** [/^[^\s@]+@[^\s@]+\.[^\s@]+$/] *)
Definition emailRegex : pattern := {|
  anchor_start := true;
  body :=
    Cat (Plus (Class not_space_at))
      (Cat (Chr "@")
         (Cat (Plus (Class not_space_at))
            (Cat (Chr ".") (Plus (Class not_space_at)))));
  anchor_end := true
|}.

Definition validateEmail (email : jsstring) : bool := test emailRegex email.

(** [/^\+?[1-9]\d{1,14}$/] *)
Definition phoneRegex : pattern := {|
  anchor_start := true;
  body :=
    Cat (Opt (Chr "+"))
      (Cat (Class is_digit_1_9) (Repeat 1 14 (Class is_digit)));
  anchor_end := true
|}.

Definition validatePhone (phone : jsstring) : bool :=
  test phoneRegex (replace_spaces phone).

(** ** Password strength *)

Module checks.
Record t : Type := {
  length : bool;
  uppercase : bool;
  lowercase : bool;
  number : bool;
  special : bool
}.
(** [Object.values]: the property values in insertion order. *)
Definition values (c : t) : list bool :=
  [length c; uppercase c; lowercase c; number c; special c].
End checks.

Record PasswordStrength : Type := {
  score : nat;
  label : jsstring;
  color : jsstring;
  bgColor : jsstring;
  strength_checks : checks.t
}.

(** An unanchored single-class literal such as [/[A-Z]/]. *)
Definition search_class (p : N -> bool) : pattern :=
  {| anchor_start := false; body := Class p; anchor_end := false |}.

(** The arms of the [switch (score)] statement. *)
Inductive switch_arm : Type :=
| Case_0_1
| Case_2
| Case_3
| Case_4
| Case_5
| Case_default.

Definition select_arm (score : nat) : switch_arm :=
  match score with
  | 0%nat | 1%nat => Case_0_1
  | 2%nat => Case_2
  | 3%nat => Case_3
  | 4%nat => Case_4
  | 5%nat => Case_5
  | _ => Case_default
  end.

Definition arm_label (a : switch_arm) : jsstring :=
  match a with
  | Case_0_1 => lit "Very Weak"
  | Case_2 => lit "Weak"
  | Case_3 => lit "Fair"
  | Case_4 => lit "Good"
  | Case_5 => lit "Strong"
  | Case_default => lit "Very Weak"
  end.

Definition arm_color (a : switch_arm) : jsstring :=
  match a with
  | Case_0_1 => lit "text-red-600"
  | Case_2 => lit "text-orange-600"
  | Case_3 => lit "text-yellow-600"
  | Case_4 => lit "text-blue-600"
  | Case_5 => lit "text-green-600"
  | Case_default => lit "text-red-600"
  end.

Definition arm_bgColor (a : switch_arm) : jsstring :=
  match a with
  | Case_0_1 => lit "bg-red-500"
  | Case_2 => lit "bg-orange-500"
  | Case_3 => lit "bg-yellow-500"
  | Case_4 => lit "bg-blue-500"
  | Case_5 => lit "bg-green-500"
  | Case_default => lit "bg-red-500"
  end.

Definition password_checks (password : jsstring) : checks.t := {|
  checks.length := (8 <=? List.length password)%nat;
  checks.uppercase := test (search_class is_upper) password;
  checks.lowercase := test (search_class is_lower) password;
  checks.number := test (search_class is_digit) password;
  checks.special := test (search_class is_special) password
|}.

Definition calculatePasswordStrength (password : jsstring) : PasswordStrength :=
  let checks := password_checks password in
  let score := List.length (List.filter (fun b : bool => b) (checks.values checks)) in
  let arm := select_arm score in
  {| score := score;
     label := arm_label arm;
     color := arm_color arm;
     bgColor := arm_bgColor arm;
     strength_checks := checks |}.

Definition validatePassword (password : jsstring) : bool :=
  let checks := strength_checks (calculatePasswordStrength password) in
  checks.length checks && checks.uppercase checks && checks.lowercase checks
  && checks.number checks && checks.special checks.

(** ** Component state *)

Module FormData.
Record t : Type := {
  email : jsstring;
  password : jsstring;
  confirmPassword : jsstring;
  fullName : jsstring;
  phone : jsstring
}.
End FormData.

(** [keyof FormData] *)
Inductive Field : Type :=
| F_email
| F_password
| F_confirmPassword
| F_fullName
| F_phone.

(** The property name of a field, as used in the error and touched maps. *)
Definition field_name (f : Field) : string :=
  match f with
  | F_email => "email"
  | F_password => "password"
  | F_confirmPassword => "confirmPassword"
  | F_fullName => "fullName"
  | F_phone => "phone"
  end.

(** [{ ...prev, [field]: value }] *)
Definition set_field (f : Field) (value : jsstring) (prev : FormData.t) : FormData.t :=
  match f with
  | F_email =>
      {| FormData.email := value; FormData.password := FormData.password prev;
         FormData.confirmPassword := FormData.confirmPassword prev;
         FormData.fullName := FormData.fullName prev; FormData.phone := FormData.phone prev |}
  | F_password =>
      {| FormData.email := FormData.email prev; FormData.password := value;
         FormData.confirmPassword := FormData.confirmPassword prev;
         FormData.fullName := FormData.fullName prev; FormData.phone := FormData.phone prev |}
  | F_confirmPassword =>
      {| FormData.email := FormData.email prev; FormData.password := FormData.password prev;
         FormData.confirmPassword := value;
         FormData.fullName := FormData.fullName prev; FormData.phone := FormData.phone prev |}
  | F_fullName =>
      {| FormData.email := FormData.email prev; FormData.password := FormData.password prev;
         FormData.confirmPassword := FormData.confirmPassword prev;
         FormData.fullName := value; FormData.phone := FormData.phone prev |}
  | F_phone =>
      {| FormData.email := FormData.email prev; FormData.password := FormData.password prev;
         FormData.confirmPassword := FormData.confirmPassword prev;
         FormData.fullName := FormData.fullName prev; FormData.phone := value |}
  end.

(** The state of one availability check: [isValid] is [true], [false] or
    [null] (here [None]). *)
Module Validation.
Record t : Type := {
  isChecking : bool;
  isValid : option bool;
  message : jsstring
}.
End Validation.

(** [FormErrors]: a present key holds a string or [undefined] (here [None]). *)
Abbreviation FormErrors := (gmap string (option jsstring)).

Inductive Provider : Type :=
| google
| facebook.

Record State : Type := {
  isLogin : bool;
  showPassword : bool;
  showConfirmPassword : bool;
  isLoading : bool;
  isSocialLoading : option Provider;
  rememberMe : bool;
  formData : FormData.t;
  errors : FormErrors;
  emailValidation : Validation.t;
  phoneValidation : Validation.t;
  touchedFields : gmap string bool
}.

Definition emptyForm : FormData.t := {|
  FormData.email := []; FormData.password := []; FormData.confirmPassword := [];
  FormData.fullName := []; FormData.phone := []
|}.

(** [{ isChecking: false, isValid: null, message: "" }] *)
Definition unknownValidation : Validation.t := {|
  Validation.isChecking := false; Validation.isValid := None; Validation.message := []
|}.

(** The values given to [useState] on the first render. *)
Definition initialState : State := {|
  isLogin := true;
  showPassword := false;
  showConfirmPassword := false;
  isLoading := false;
  isSocialLoading := None;
  rememberMe := false;
  formData := emptyForm;
  errors := ∅;
  emailValidation := unknownValidation;
  phoneValidation := unknownValidation;
  touchedFields := ∅
|}.

(** The argument of a state setter: a value or an updater function. *)
Inductive update (A : Type) : Type :=
| SetTo (v : A)
| Updater (f : A -> A).

Definition apply_update {A : Type} (u : update A) (prev : A) : A :=
  match u with
  | SetTo v => v
  | Updater f => f prev
  end.

(** The setter calls made by the modelled handlers. *)
Inductive Setter : Type :=
| setIsLogin (u : update bool)
| setIsLoading (u : update bool)
| setFormData (u : update FormData.t)
| setErrors (u : update FormErrors)
| setTouchedFields (u : update (gmap string bool))
| setEmailValidation (u : update Validation.t)
| setPhoneValidation (u : update Validation.t).

Definition apply_setter (s : Setter) (st : State) : State :=
  match s with
  | setIsLogin u =>
      {| isLogin := apply_update u (isLogin st); showPassword := showPassword st;
         showConfirmPassword := showConfirmPassword st; isLoading := isLoading st;
         isSocialLoading := isSocialLoading st; rememberMe := rememberMe st;
         formData := formData st; errors := errors st;
         emailValidation := emailValidation st; phoneValidation := phoneValidation st;
         touchedFields := touchedFields st |}
  | setIsLoading u =>
      {| isLogin := isLogin st; showPassword := showPassword st;
         showConfirmPassword := showConfirmPassword st;
         isLoading := apply_update u (isLoading st);
         isSocialLoading := isSocialLoading st; rememberMe := rememberMe st;
         formData := formData st; errors := errors st;
         emailValidation := emailValidation st; phoneValidation := phoneValidation st;
         touchedFields := touchedFields st |}
  | setFormData u =>
      {| isLogin := isLogin st; showPassword := showPassword st;
         showConfirmPassword := showConfirmPassword st; isLoading := isLoading st;
         isSocialLoading := isSocialLoading st; rememberMe := rememberMe st;
         formData := apply_update u (formData st); errors := errors st;
         emailValidation := emailValidation st; phoneValidation := phoneValidation st;
         touchedFields := touchedFields st |}
  | setErrors u =>
      {| isLogin := isLogin st; showPassword := showPassword st;
         showConfirmPassword := showConfirmPassword st; isLoading := isLoading st;
         isSocialLoading := isSocialLoading st; rememberMe := rememberMe st;
         formData := formData st; errors := apply_update u (errors st);
         emailValidation := emailValidation st; phoneValidation := phoneValidation st;
         touchedFields := touchedFields st |}
  | setTouchedFields u =>
      {| isLogin := isLogin st; showPassword := showPassword st;
         showConfirmPassword := showConfirmPassword st; isLoading := isLoading st;
         isSocialLoading := isSocialLoading st; rememberMe := rememberMe st;
         formData := formData st; errors := errors st;
         emailValidation := emailValidation st; phoneValidation := phoneValidation st;
         touchedFields := apply_update u (touchedFields st) |}
  | setEmailValidation u =>
      {| isLogin := isLogin st; showPassword := showPassword st;
         showConfirmPassword := showConfirmPassword st; isLoading := isLoading st;
         isSocialLoading := isSocialLoading st; rememberMe := rememberMe st;
         formData := formData st; errors := errors st;
         emailValidation := apply_update u (emailValidation st);
         phoneValidation := phoneValidation st;
         touchedFields := touchedFields st |}
  | setPhoneValidation u =>
      {| isLogin := isLogin st; showPassword := showPassword st;
         showConfirmPassword := showConfirmPassword st; isLoading := isLoading st;
         isSocialLoading := isSocialLoading st; rememberMe := rememberMe st;
         formData := formData st; errors := errors st;
         emailValidation := emailValidation st;
         phoneValidation := apply_update u (phoneValidation st);
         touchedFields := touchedFields st |}
  end.

(** ** The outside world: data service, identity provider, dialogs *)

(** The error object of a failed query. *)
Module PostgrestError.
Record t : Type := { message : jsstring }.
End PostgrestError.

(** The value a query of the profile table resolves to:
    [{ data, error }], each an object or [null].  A row carries its [id]. *)
Module QueryResponse.
Record t : Type := {
  data : option (list jsstring);
  error : option PostgrestError.t
}.
End QueryResponse.

Module AuthError.
Record t : Type := { message : jsstring }.
End AuthError.

(** The value an identity-provider call resolves to; only [error] is read. *)
Module AuthResponse.
Record t : Type := { error : option AuthError.t }.
End AuthResponse.

Module SignUpCredentials.
Record t : Type := {
  email : jsstring;
  password : jsstring;
  full_name : jsstring;
  phone : jsstring;
  emailRedirectTo : jsstring
}.
End SignUpCredentials.

Module Swal.
Inductive Icon : Type :=
| success
| error
| warning.
(** The options object given to [Swal.fire]; an absent property is [None]. *)
Record Options : Type := {
  icon : Icon;
  title : jsstring;
  text : jsstring;
  showCancelButton : option bool;
  confirmButtonText : option jsstring;
  cancelButtonText : option jsstring;
  confirmButtonColor : option jsstring;
  cancelButtonColor : option jsstring;
  timer : option N;
  timerProgressBar : option bool;
  showConfirmButton : option bool
}.
(** The result a dialog settles with; [value] is read for its truthiness. *)
Record Result : Type := { value : bool }.
End Swal.

(** The calls that leave the component, indexed by the type of their
    answer.  The service client resolves every call to a response object
    and reports a failure in its [error] property; the [await]s of the
    source therefore continue with a response. *)
Inductive Eff : Type -> Type :=
| Timeout (ms : N) : Eff unit
| ProfilesSelectIdEq (column : string) (value : jsstring) : Eff QueryResponse.t
| ConsoleError (msg : jsstring) (e : PostgrestError.t) : Eff unit
| SignInWithPassword (email password : jsstring) : Eff AuthResponse.t
| SignUp (c : SignUpCredentials.t) : Eff AuthResponse.t
| ResendSignup (email : jsstring) : Eff AuthResponse.t
| WindowLocationOrigin : Eff jsstring
| SwalFire (o : Swal.Options) : Eff unit
| SwalSettled : Eff Swal.Result
| Navigate (path : jsstring) : Eff unit
| PreventDefault : Eff unit
| SetState (s : Setter) : Eff unit.

(** A handler body: a tree of calls, each continued with its answer. *)
Inductive Prog (A : Type) : Type :=
| Ret (a : A)
| Vis (X : Type) (e : Eff X) (k : X -> Prog A).

Arguments Ret {A} a.
Arguments Vis {A X} e k.

Fixpoint prog_bind {A B : Type} (f : A -> Prog B) (p : Prog A) : Prog B :=
  match p with
  | Ret a => f a
  | Vis e k => Vis e (fun x => prog_bind f (k x))
  end.

#[global] Instance Prog_ret : MRet Prog := @Ret.
#[global] Instance Prog_bind : MBind Prog := @prog_bind.

Definition call {X : Type} (e : Eff X) : Prog X := Vis e Ret.

(** [await Swal.fire(o)] *)
Definition awaitSwal (o : Swal.Options) : Prog Swal.Result :=
  _ ← call (SwalFire o); call SwalSettled.

(** One call with its answer. *)
Inductive Event : Type :=
| Ev (X : Type) (e : Eff X) (x : X).

Arguments Ev {X} e x.

(** The outside world answers each call from its own state. *)
Definition Handler (W : Type) : Type := forall X : Type, Eff X -> W -> X * W.

Fixpoint exec {W A : Type} (h : Handler W) (p : Prog A) (w : W) : A * list Event * W :=
  match p with
  | Ret a => (a, [], w)
  | Vis e k =>
      let '(x, w1) := h _ e w in
      let '(a, tr, w2) := exec h (k x) w1 in
      (a, Ev e x :: tr, w2)
  end.

Definition result_of {A W : Type} (r : A * list Event * W) : A := fst (fst r).
Definition trace_of {A W : Type} (r : A * list Event * W) : list Event := snd (fst r).

(** The state after React has applied the setter calls of a trace, in
    order. *)
Definition commit_event (st : State) (ev : Event) : State :=
  match ev with
  | Ev e _ =>
      match e with
      | SetState s => apply_setter s st
      | _ => st
      end
  end.

Definition commit (tr : list Event) (st : State) : State :=
  fold_left commit_event tr st.

Definition is_SignUp (ev : Event) : bool :=
  match ev with
  | Ev e _ => match e with SignUp _ => true | _ => false end
  end.

(** The dialogs opened during a trace, in order. *)
Definition dialog_of (ev : Event) : option Swal.Options :=
  match ev with
  | Ev e _ => match e with SwalFire o => Some o | _ => None end
  end.

Definition dialogs (tr : list Event) : list Swal.Options :=
  omap dialog_of tr.

(** The answers of the identity provider to sign-in calls during a trace. *)
Definition signIn_answer (ev : Event) : option AuthResponse.t :=
  match ev with
  | @Ev X e x =>
      match e in Eff T return T -> option AuthResponse.t with
      | SignInWithPassword _ _ => fun r => Some r
      | _ => fun _ => None
      end x
  end.

Definition signIn_answers (tr : list Event) : list AuthResponse.t :=
  omap signIn_answer tr.

(** ** Availability checker *)

Module Availability.
Record t : Type := { isValid : bool; message : jsstring }.
End Availability.

Section AuthPage.

(** [String.prototype.toLowerCase] (Unicode case mapping), left abstract. *)
Variable toLowerCase : jsstring -> jsstring.

Definition checkEmailAvailability (email : jsstring) : Prog Availability.t :=
  _ ← call (Timeout 800);
  if negb (validateEmail email) then
    mret {| Availability.isValid := false;
            Availability.message := lit "Please enter a valid email format" |}
  else
    r ← call (ProfilesSelectIdEq "email" (toLowerCase email));
    match QueryResponse.error r with
    | Some err =>
        _ ← call (ConsoleError (lit "Error checking email:") err);
        mret {| Availability.isValid := false;
                Availability.message := lit "Error checking email. Please try again." |}
    | None =>
        match QueryResponse.data r with
        | Some (_ :: _) =>
            mret {| Availability.isValid := false;
                    Availability.message := lit "This email is already registered" |}
        | _ =>
            mret {| Availability.isValid := true;
                    Availability.message := lit "Email is available" |}
        end
    end.

Definition checkPhoneAvailability (phone : jsstring) : Prog Availability.t :=
  _ ← call (Timeout 600);
  if negb (truthy phone) then
    mret {| Availability.isValid := true; Availability.message := [] |}
  else if negb (validatePhone phone) then
    mret {| Availability.isValid := false;
            Availability.message := lit "Please enter a valid phone number" |}
  else
    let cleanPhone := replace_spaces phone in
    r ← call (ProfilesSelectIdEq "phone" cleanPhone);
    match QueryResponse.error r with
    | Some err =>
        _ ← call (ConsoleError (lit "Error checking phone:") err);
        mret {| Availability.isValid := false;
                Availability.message := lit "Error checking phone. Please try again." |}
    | None =>
        match QueryResponse.data r with
        | Some (_ :: _) =>
            mret {| Availability.isValid := false;
                    Availability.message := lit "This phone number is already registered" |}
        | _ =>
            mret {| Availability.isValid := true;
                    Availability.message := lit "Phone number is available" |}
        end
    end.

(** ** Handlers of the component

    Each handler reads the state of the render it belongs to ([st]) and
    calls setters; React applies the calls afterwards ([commit]). *)

Definition resetForm : Prog unit :=
  _ ← call (SetState (setFormData (SetTo emptyForm)));
  _ ← call (SetState (setErrors (SetTo ∅)));
  _ ← call (SetState (setTouchedFields (SetTo ∅)));
  _ ← call (SetState (setEmailValidation (SetTo unknownValidation)));
  call (SetState (setPhoneValidation (SetTo unknownValidation))).

(** [errors[field]] read for its truthiness. *)
Definition error_shown (e : FormErrors) (f : Field) : bool :=
  match e !! field_name f with
  | Some (Some m) => truthy m
  | _ => false
  end.

(** [touchedFields[field]] read for its truthiness. *)
Definition touched (t : gmap string bool) (f : Field) : bool :=
  match t !! field_name f with
  | Some b => b
  | None => false
  end.

Definition is_email (f : Field) : bool :=
  match f with F_email => true | _ => false end.

Definition is_phone (f : Field) : bool :=
  match f with F_phone => true | _ => false end.

Definition checkingValidation : Validation.t := {|
  Validation.isChecking := true; Validation.isValid := None;
  Validation.message := lit "Checking availability..."
|}.

Definition resolvedValidation (r : Availability.t) : Validation.t := {|
  Validation.isChecking := false;
  Validation.isValid := Some (Availability.isValid r);
  Validation.message := Availability.message r
|}.

Definition when (b : bool) (p : Prog unit) : Prog unit :=
  if b then p else mret tt.

(** The availability checkers of this model always resolve, so the [catch]
    arms of the source are not entered and are left out. *)
Definition handleInputChange (st : State) (field : Field) (value : jsstring) : Prog unit :=
  _ ← call (SetState (setFormData (Updater (set_field field value))));
  _ ← when (error_shown (errors st) field)
        (call (SetState (setErrors (Updater (fun prev => <[field_name field := None]> prev)))));
  _ ← when (negb (touched (touchedFields st) field))
        (call (SetState (setTouchedFields (Updater (fun prev => <[field_name field := true]> prev)))));
  _ ← when (is_email field && negb (isLogin st) && (0 <? List.length value)%nat)
        (_ ← call (SetState (setEmailValidation (SetTo checkingValidation)));
         result ← checkEmailAvailability value;
         call (SetState (setEmailValidation (SetTo (resolvedValidation result)))));
  _ ← when (is_phone field && negb (isLogin st) && (0 <? List.length value)%nat)
        (_ ← call (SetState (setPhoneValidation (SetTo checkingValidation)));
         result ← checkPhoneAvailability value;
         call (SetState (setPhoneValidation (SetTo (resolvedValidation result)))));
  when (isLogin st || (List.length value =? 0)%nat)
    (_ ← when (is_email field)
           (call (SetState (setEmailValidation (SetTo unknownValidation))));
     when (is_phone field)
       (call (SetState (setPhoneValidation (SetTo unknownValidation))))).

(** [v.isValid === false] *)
Definition isValid_false (v : Validation.t) : bool :=
  match Validation.isValid v with
  | Some false => true
  | _ => false
  end.

Definition set_error (k : string) (m : jsstring) (e : FormErrors) : FormErrors :=
  <[k := Some m]> e.

(** [validateForm] fills the object [newErrors] block by block; each block
    below is one [if] chain of the source, applied to the object built so
    far. *)

(** Email validation. *)
Definition check_email (st : State) (e : FormErrors) : FormErrors :=
  if negb (truthy (FormData.email (formData st))) then
    set_error "email" (lit "Email is required") e
  else if negb (validateEmail (FormData.email (formData st))) then
    set_error "email" (lit "Please enter a valid email address") e
  else if negb (isLogin st) && isValid_false (emailValidation st) then
    set_error "email" (Validation.message (emailValidation st)) e
  else e.

(** Password validation. *)
Definition check_password (st : State) (e : FormErrors) : FormErrors :=
  if negb (truthy (FormData.password (formData st))) then
    set_error "password" (lit "Password is required") e
  else if negb (isLogin st) && negb (validatePassword (FormData.password (formData st))) then
    set_error "password" (lit "Password must meet all requirements") e
  else e.

(** Register-specific validations. *)
Definition check_fullName (st : State) (e : FormErrors) : FormErrors :=
  if negb (truthy (FormData.fullName (formData st))) then
    set_error "fullName" (lit "Full name is required") e
  else if (List.length (FormData.fullName (formData st)) <? 2)%nat then
    set_error "fullName" (lit "Full name must be at least 2 characters") e
  else e.

Definition check_confirmPassword (st : State) (e : FormErrors) : FormErrors :=
  if negb (truthy (FormData.confirmPassword (formData st))) then
    set_error "confirmPassword" (lit "Please confirm your password") e
  else if negb (str_eqb (FormData.password (formData st))
                  (FormData.confirmPassword (formData st))) then
    set_error "confirmPassword" (lit "Passwords do not match") e
  else e.

Definition check_phone (st : State) (e : FormErrors) : FormErrors :=
  if truthy (FormData.phone (formData st)) then
    if negb (validatePhone (FormData.phone (formData st))) then
      set_error "phone" (lit "Please enter a valid phone number") e
    else if isValid_false (phoneValidation st) then
      set_error "phone" (Validation.message (phoneValidation st)) e
    else e
  else e.

(** Check if validations are still in progress. *)
Definition check_email_pending (st : State) (e : FormErrors) : FormErrors :=
  if Validation.isChecking (emailValidation st) then
    set_error "email" (lit "Please wait while we check email availability") e
  else e.

Definition check_phone_pending (st : State) (e : FormErrors) : FormErrors :=
  if Validation.isChecking (phoneValidation st) then
    set_error "phone" (lit "Please wait while we check phone availability") e
  else e.

(** The object [newErrors] at the end of [validateForm]. *)
Definition newErrors (st : State) : FormErrors :=
  let e := check_password st (check_email st ∅) in
  if negb (isLogin st) then
    check_phone_pending st
      (check_email_pending st
         (check_phone st (check_confirmPassword st (check_fullName st e))))
  else e.

Definition validateForm (st : State) : Prog bool :=
  _ ← call (SetState (setErrors (SetTo (newErrors st))));
  mret (size (newErrors st) =? 0)%nat.

(** ** Dialogs *)

Definition red : jsstring := lit "#dc2626".

Definition validationErrorDialog : Swal.Options := {|
  Swal.icon := Swal.error;
  Swal.title := lit "Validation Error";
  Swal.text := lit "Please fix the errors in the form";
  Swal.showCancelButton := None; Swal.confirmButtonText := None;
  Swal.cancelButtonText := None; Swal.confirmButtonColor := Some red;
  Swal.cancelButtonColor := None; Swal.timer := None;
  Swal.timerProgressBar := None; Swal.showConfirmButton := None
|}.

(** The dialog that offers to resend the verification email. *)
Definition emailNotConfirmedDialog : Swal.Options := {|
  Swal.icon := Swal.warning;
  Swal.title := lit "Email Not Confirmed";
  Swal.text :=
    lit "Your account exists but you need to verify your email address before logging in.";
  Swal.showCancelButton := Some true;
  Swal.confirmButtonText := Some (lit "Resend Verification Email");
  Swal.cancelButtonText := Some (lit "OK");
  Swal.confirmButtonColor := Some red;
  Swal.cancelButtonColor := Some (lit "#6b7280");
  Swal.timer := None; Swal.timerProgressBar := None; Swal.showConfirmButton := None
|}.

Definition errorDialog (title text : jsstring) : Swal.Options := {|
  Swal.icon := Swal.error;
  Swal.title := title;
  Swal.text := text;
  Swal.showCancelButton := None; Swal.confirmButtonText := None;
  Swal.cancelButtonText := None; Swal.confirmButtonColor := Some red;
  Swal.cancelButtonColor := None; Swal.timer := None;
  Swal.timerProgressBar := None; Swal.showConfirmButton := None
|}.

Definition resendFailedDialog (e : AuthError.t) : Swal.Options :=
  errorDialog (lit "Resend Failed") (AuthError.message e).

Definition verificationSentDialog : Swal.Options := {|
  Swal.icon := Swal.success;
  Swal.title := lit "Verification Email Sent!";
  Swal.text :=
    lit "A new verification link has been sent to your email address. Please check your inbox.";
  Swal.showCancelButton := None; Swal.confirmButtonText := None;
  Swal.cancelButtonText := None; Swal.confirmButtonColor := Some red;
  Swal.cancelButtonColor := None; Swal.timer := None;
  Swal.timerProgressBar := None; Swal.showConfirmButton := None
|}.

(** The generic login-failure dialog. *)
Definition loginFailedDialog (e : AuthError.t) : Swal.Options :=
  errorDialog (lit "Login Failed")
    (or_else (AuthError.message e) (lit "Invalid email or password. Please try again.")).

Definition loginSuccessDialog : Swal.Options := {|
  Swal.icon := Swal.success;
  Swal.title := lit "Login berhasil!";
  Swal.text := lit "Anda akan diarahkan ke halaman utama dalam 2 detik.";
  Swal.showCancelButton := None; Swal.confirmButtonText := None;
  Swal.cancelButtonText := None; Swal.confirmButtonColor := None;
  Swal.cancelButtonColor := None; Swal.timer := Some 2000;
  Swal.timerProgressBar := Some true; Swal.showConfirmButton := Some false
|}.

Definition registrationFailedDialog (e : AuthError.t) : Swal.Options :=
  errorDialog (lit "Registration Failed") (AuthError.message e).

Definition registrationSuccessDialog : Swal.Options := {|
  Swal.icon := Swal.success;
  Swal.title := lit "Registration Successful!";
  Swal.text := lit "Please check your email to verify your account.";
  Swal.showCancelButton := None; Swal.confirmButtonText := None;
  Swal.cancelButtonText := None; Swal.confirmButtonColor := Some red;
  Swal.cancelButtonColor := None; Swal.timer := Some 2000;
  Swal.timerProgressBar := Some true; Swal.showConfirmButton := None
|}.

(** ** Submission *)

(** The login branch of [handleSubmit], after the sign-in call resolved.
    The success dialog is not awaited: the loading flag is cleared first and
    the [then] callback runs once the dialog has settled. *)
Definition afterSignIn (st : State) (r : AuthResponse.t) : Prog unit :=
  match AuthResponse.error r with
  | Some error =>
      _ ← (if str_eqb (AuthError.message error) (lit "Email not confirmed") then
             res ← awaitSwal emailNotConfirmedDialog;
             when (Swal.value res)
               (rr ← call (ResendSignup (FormData.email (formData st)));
                match AuthResponse.error rr with
                | Some resendError => _ ← awaitSwal (resendFailedDialog resendError); mret tt
                | None => _ ← awaitSwal verificationSentDialog; mret tt
                end)
           else
             _ ← awaitSwal (loginFailedDialog error); mret tt);
      call (SetState (setIsLoading (SetTo false)))
  | None =>
      _ ← call (SwalFire loginSuccessDialog);
      _ ← call (SetState (setIsLoading (SetTo false)));
      _ ← call SwalSettled;
      _ ← resetForm;
      call (Navigate (lit "/"))
  end.

(** The register branch of [handleSubmit], after the sign-up call resolved. *)
Definition afterSignUp (r : AuthResponse.t) : Prog unit :=
  _ ← match AuthResponse.error r with
      | Some error => _ ← awaitSwal (registrationFailedDialog error); mret tt
      | None =>
          _ ← awaitSwal registrationSuccessDialog;
          _ ← call (SetState (setIsLogin (SetTo true)));
          resetForm
      end;
  call (SetState (setIsLoading (SetTo false))).

Definition handleSubmit (st : State) : Prog unit :=
  _ ← call PreventDefault;
  ok ← validateForm st;
  if negb ok then
    call (SwalFire validationErrorDialog)
  else
    _ ← call (SetState (setIsLoading (SetTo true)));
    _ ← call (Timeout 1500);
    if isLogin st then
      r ← call (SignInWithPassword (FormData.email (formData st))
                  (FormData.password (formData st)));
      afterSignIn st r
    else
      origin ← call WindowLocationOrigin;
      r ← call (SignUp {|
             SignUpCredentials.email := FormData.email (formData st);
             SignUpCredentials.password := FormData.password (formData st);
             SignUpCredentials.full_name := FormData.fullName (formData st);
             SignUpCredentials.phone := FormData.phone (formData st);
             SignUpCredentials.emailRedirectTo := origin ++ lit "/auth" |});
      afterSignUp r.

(** ** Switching mode *)

(** The footer link. *)
Definition toggleMode (st : State) : Prog unit :=
  _ ← call (SetState (setIsLogin (SetTo (negb (isLogin st)))));
  resetForm.

(** [!isLoading && !isSocialLoading] *)
Definition tabs_enabled (st : State) : bool :=
  negb (isLoading st) &&
  negb (match isSocialLoading st with Some _ => true | None => false end).

(** The [onClick] handlers of the two tab buttons above the form. *)
Definition onClick_loginTab (st : State) : Prog unit :=
  when (tabs_enabled st) (call (SetState (setIsLogin (SetTo true)))).

Definition onClick_registerTab (st : State) : Prog unit :=
  when (tabs_enabled st) (call (SetState (setIsLogin (SetTo false)))).

End AuthPage.

(** A handler for closed examples: every call is answered by a fixed value,
    queries and provider calls by the given answers. *)
Definition constHandler (q : QueryResponse.t) (a : AuthResponse.t) (confirm : bool)
  : Handler unit :=
  fun X e w =>
    match e in Eff T return T * unit with
    | Timeout _ => (tt, w)
    | ProfilesSelectIdEq _ _ => (q, w)
    | ConsoleError _ _ => (tt, w)
    | SignInWithPassword _ _ => (a, w)
    | SignUp _ => (a, w)
    | ResendSignup _ => (a, w)
    | WindowLocationOrigin => (lit "http://localhost:5173", w)
    | SwalFire _ => (tt, w)
    | SwalSettled => ({| Swal.value := confirm |}, w)
    | Navigate _ => (tt, w)
    | PreventDefault => (tt, w)
    | SetState _ => (tt, w)
    end.

(** ASCII lower-casing, an instance of [toLowerCase] on ASCII strings. *)
Definition asciiLower (s : jsstring) : jsstring :=
  map (fun c => if is_upper c then c + 32 else c) s.

(** ** Specification vocabulary *)

(** Membership in a class, as a proposition. *)
Definition holds (p : N -> bool) (c : N) : Prop := p c = true.

(** The shape [local@domain.tld]: three non-empty runs of characters that
    are neither whitespace nor [@], separated by [@] and by a dot. *)
Definition email_shape (s : jsstring) : Prop :=
  exists l d t : jsstring,
    s = l ++ [cu "@"] ++ d ++ [cu "."] ++ t /\
    l <> [] /\ d <> [] /\ t <> [] /\
    Forall (holds not_space_at) l /\
    Forall (holds not_space_at) d /\
    Forall (holds not_space_at) t.

(** The string has an [@] with a dot somewhere after it. *)
Definition dot_after_at (s : jsstring) : Prop :=
  exists a b : jsstring, s = a ++ cu "@" :: b /\ In (cu ".") b.

(** The same, computed by a scan. *)
Fixpoint dot_after_atb (s : jsstring) : bool :=
  match s with
  | [] => false
  | c :: r => ((c =? cu "@") && existsb (N.eqb (cu ".")) r) || dot_after_atb r
  end.

(** An optional leading [+], then 2 to 15 digits, the first of them not
    [0]. *)
Definition phone_shape (s : jsstring) : Prop :=
  exists sign ds : jsstring,
    s = sign ++ ds /\
    (sign = [] \/ sign = [cu "+"]) /\
    (2 <= List.length ds <= 15)%nat /\
    Forall (holds is_digit) ds /\
    hd_error ds <> Some (cu "0").

(** The table of labels of the specification, keyed by score. *)
Definition label_table (score : nat) : option jsstring :=
  match score with
  | 0%nat | 1%nat => Some (lit "Very Weak")
  | 2%nat => Some (lit "Weak")
  | 3%nat => Some (lit "Fair")
  | 4%nat => Some (lit "Good")
  | 5%nat => Some (lit "Strong")
  | _ => None
  end.

(** The number of [true] among the five criteria. *)
Definition count_true (b1 b2 b3 b4 b5 : bool) : nat :=
  (Nat.b2n b1 + Nat.b2n b2 + Nat.b2n b3 + Nat.b2n b4 + Nat.b2n b5)%nat.

(** The queries of the profile table made during a trace, with their
    answers. *)
Definition query_of (ev : Event) : option (string * jsstring * QueryResponse.t) :=
  match ev with
  | @Ev X e x =>
      match e in Eff T return T -> option (string * jsstring * QueryResponse.t) with
      | ProfilesSelectIdEq column value => fun r => Some (column, value, r)
      | _ => fun _ => None
      end x
  end.

Definition queries (tr : list Event) : list (string * jsstring * QueryResponse.t) :=
  omap query_of tr.

(** Every run of a program satisfies [Q]: whatever the answers to its
    calls, the trace and the result are related by [Q]. *)
Fixpoint all_runs {A : Type} (p : Prog A) (Q : list Event -> A -> Prop) : Prop :=
  match p with
  | Ret a => Q [] a
  | Vis e k => forall x, all_runs (k x) (fun tr a => Q (Ev e x :: tr) a)
  end.

(** The availability results of the email checker. *)
Definition invalidEmailFormat : Availability.t :=
  {| Availability.isValid := false;
     Availability.message := lit "Please enter a valid email format" |}.

Definition emailCheckError : Availability.t :=
  {| Availability.isValid := false;
     Availability.message := lit "Error checking email. Please try again." |}.

Definition emailTaken : Availability.t :=
  {| Availability.isValid := false;
     Availability.message := lit "This email is already registered" |}.

Definition emailAvailable : Availability.t :=
  {| Availability.isValid := true;
     Availability.message := lit "Email is available" |}.

(** The email field passes the availability gate of [validateForm]: no check
    is flagged as running and the stored verdict is not negative. *)
Definition email_gate_open (st : State) : Prop :=
  truthy (FormData.email (formData st)) = true /\
  validateEmail (FormData.email (formData st)) = true /\
  Validation.isChecking (emailValidation st) = false /\
  Validation.isValid (emailValidation st) <> Some false.

(** The gate as the specification words it: no check running and the last
    resolved verdict affirmative. *)
Definition email_gate_affirmative (st : State) : Prop :=
  Validation.isChecking (emailValidation st) = false /\
  Validation.isValid (emailValidation st) = Some true.

(** The state with other availability-check results. *)
Definition with_validations (ev pv : Validation.t) (st : State) : State :=
  apply_setter (setEmailValidation (SetTo ev))
    (apply_setter (setPhoneValidation (SetTo pv)) st).

(** The part of the state that [resetForm] writes. *)
Definition form_cleared (st : State) : Prop :=
  formData st = emptyForm /\
  errors st = ∅ /\
  touchedFields st = ∅ /\
  emailValidation st = unknownValidation /\
  phoneValidation st = unknownValidation.

(** ** Example runs *)

(** A world in which the profile table has no matching row, the identity
    provider reports no error and dialogs are dismissed. *)
Definition quietWorld : Handler unit :=
  constHandler {| QueryResponse.data := Some []; QueryResponse.error := None |}
    {| AuthResponse.error := None |} false.

(** The state after a handler has run in the quiet world and React has
    applied its setter calls. *)
Definition after (st : State) (p : Prog unit) : State :=
  commit (trace_of (exec quietWorld p tt)) st.

(** A visitor types an email address on the login form ... *)
Definition typed_login_state : State :=
  after initialState
    (handleInputChange asciiLower initialState F_email (lit "new@example.com")).

(** ... clicks the Register tab ... *)
Definition tab_register_state : State :=
  after typed_login_state (onClick_registerTab typed_login_state).

(** ... and fills in name, password and confirmation. *)
Definition filled_register_state : State :=
  let s1 := after tab_register_state
              (handleInputChange asciiLower tab_register_state F_fullName (lit "Al")) in
  let s2 := after s1 (handleInputChange asciiLower s1 F_password (lit "Passw0rd!")) in
  after s2 (handleInputChange asciiLower s2 F_confirmPassword (lit "Passw0rd!")).

(** A registration form whose email availability check has not resolved. *)
Definition pending_register_state : State := {|
  isLogin := false;
  showPassword := false;
  showConfirmPassword := false;
  isLoading := false;
  isSocialLoading := None;
  rememberMe := false;
  formData := {|
    FormData.email := lit "new@example.com";
    FormData.password := lit "Passw0rd!";
    FormData.confirmPassword := lit "Passw0rd!";
    FormData.fullName := lit "Al";
    FormData.phone := []
  |};
  errors := ∅;
  emailValidation := checkingValidation;
  phoneValidation := unknownValidation;
  touchedFields := ∅
|}.

(** A login form with a one-letter password. *)
Definition weak_login_state : State :=
  apply_setter (setFormData (SetTo {|
    FormData.email := lit "user@example.com";
    FormData.password := lit "x";
    FormData.confirmPassword := [];
    FormData.fullName := [];
    FormData.phone := []
  |})) initialState.

(** ** Calls read off a trace *)

Definition signUp_of (ev : Event) : option SignUpCredentials.t :=
  match ev with
  | Ev e _ => match e with SignUp c => Some c | _ => None end
  end.

(** The credentials of the sign-up calls of a trace. *)
Definition signUps (tr : list Event) : list SignUpCredentials.t :=
  omap signUp_of tr.

Definition signIn_of (ev : Event) : option (jsstring * jsstring) :=
  match ev with
  | Ev e _ => match e with SignInWithPassword em pw => Some (em, pw) | _ => None end
  end.

(** The email and password of the sign-in calls of a trace. *)
Definition signIns (tr : list Event) : list (jsstring * jsstring) :=
  omap signIn_of tr.

Definition resend_of (ev : Event) : option jsstring :=
  match ev with
  | Ev e _ => match e with ResendSignup em => Some em | _ => None end
  end.

(** The addresses a verification email was requested for. *)
Definition resends (tr : list Event) : list jsstring :=
  omap resend_of tr.

Definition navigate_of (ev : Event) : option jsstring :=
  match ev with
  | Ev e _ => match e with Navigate path => Some path | _ => None end
  end.

(** The routes navigated to. *)
Definition navigations (tr : list Event) : list jsstring :=
  omap navigate_of tr.

Definition origin_of (ev : Event) : option jsstring :=
  match ev with
  | @Ev X e x =>
      match e in Eff T return T -> option jsstring with
      | WindowLocationOrigin => fun o => Some o
      | _ => fun _ => None
      end x
  end.

(** The values read from [window.location.origin]. *)
Definition origins (tr : list Event) : list jsstring :=
  omap origin_of tr.

Definition console_of (ev : Event) : option (jsstring * PostgrestError.t) :=
  match ev with
  | Ev e _ => match e with ConsoleError m err => Some (m, err) | _ => None end
  end.

(** What was written to the console. *)
Definition consoleErrors (tr : list Event) : list (jsstring * PostgrestError.t) :=
  omap console_of tr.

Definition signUp_answer (ev : Event) : option AuthResponse.t :=
  match ev with
  | @Ev X e x =>
      match e in Eff T return T -> option AuthResponse.t with
      | SignUp _ => fun r => Some r
      | _ => fun _ => None
      end x
  end.

(** The answers of the identity provider to sign-up calls. *)
Definition signUp_answers (tr : list Event) : list AuthResponse.t :=
  omap signUp_answer tr.

Definition swal_answer (ev : Event) : option bool :=
  match ev with
  | @Ev X e x =>
      match e in Eff T return T -> option bool with
      | SwalSettled => fun r => Some (Swal.value r)
      | _ => fun _ => None
      end x
  end.

(** How the awaited dialogs were closed: [true] for the confirm button. *)
Definition swal_answers (tr : list Event) : list bool :=
  omap swal_answer tr.

(** The credentials [handleSubmit] sends when registering, for a given
    [window.location.origin]. *)
Definition signUp_request (st : State) (origin : jsstring) : SignUpCredentials.t := {|
  SignUpCredentials.email := FormData.email (formData st);
  SignUpCredentials.password := FormData.password (formData st);
  SignUpCredentials.full_name := FormData.fullName (formData st);
  SignUpCredentials.phone := FormData.phone (formData st);
  SignUpCredentials.emailRedirectTo := origin ++ lit "/auth"
|}.

(** The availability results of the phone checker. *)
Definition phoneNotGiven : Availability.t :=
  {| Availability.isValid := true; Availability.message := [] |}.

Definition invalidPhoneFormat : Availability.t :=
  {| Availability.isValid := false;
     Availability.message := lit "Please enter a valid phone number" |}.

Definition phoneCheckError : Availability.t :=
  {| Availability.isValid := false;
     Availability.message := lit "Error checking phone. Please try again." |}.

Definition phoneTaken : Availability.t :=
  {| Availability.isValid := false;
     Availability.message := lit "This phone number is already registered" |}.

Definition phoneAvailable : Availability.t :=
  {| Availability.isValid := true;
     Availability.message := lit "Phone number is available" |}.

(** [formData[field]] *)
Definition get_field (f : Field) (fd : FormData.t) : jsstring :=
  match f with
  | F_email => FormData.email fd
  | F_password => FormData.password fd
  | F_confirmPassword => FormData.confirmPassword fd
  | F_fullName => FormData.fullName fd
  | F_phone => FormData.phone fd
  end.

(** The five property names of the form. *)
Definition field_names : list string :=
  ["email"; "password"; "confirmPassword"; "fullName"; "phone"]%string.

(** An entry of a block's result is the block's own string entry or was
    there before. *)
Definition entry_from (K : string) (e e' : FormErrors) : Prop :=
  forall k v, e' !! k = Some v ->
    (k = K /\ exists m, v = Some m) \/ e !! k = Some v.

(** The conditions under which [validateForm] lets a registration through. *)
Definition registration_acceptable (st : State) : Prop :=
  email_gate_open st /\
  truthy (FormData.password (formData st)) = true /\
  validatePassword (FormData.password (formData st)) = true /\
  (2 <= List.length (FormData.fullName (formData st)))%nat /\
  truthy (FormData.confirmPassword (formData st)) = true /\
  FormData.confirmPassword (formData st) = FormData.password (formData st) /\
  (truthy (FormData.phone (formData st)) = true ->
   validatePhone (FormData.phone (formData st)) = true /\
   Validation.isValid (phoneValidation st) <> Some false) /\
  Validation.isChecking (phoneValidation st) = false.

(** The conditions under which [validateForm] lets a login through. *)
Definition login_acceptable (st : State) : Prop :=
  truthy (FormData.email (formData st)) = true /\
  validateEmail (FormData.email (formData st)) = true /\
  truthy (FormData.password (formData st)) = true.

(** ** Social sign-in, the session listener and the landing page *)

(** The calls of the handlers outside the form: those of the form
    ([FormCall]) and the ones only these handlers make.  An element of the
    document is a handle. *)
Inductive PageEff : Type -> Type :=
| FormCall (X : Type) (e : Eff X) : PageEff X
| SignInWithOAuth (provider : Provider) (redirectTo : jsstring) : PageEff AuthResponse.t
| ConsoleErrorAuth (msg : jsstring) (e : AuthError.t) : PageEff unit
| SetIsSocialLoading (v : option Provider) : PageEff unit
| WindowLocationHash : PageEff jsstring
| WindowLocationPathname : PageEff jsstring
| WindowLocationSearch : PageEff jsstring
| HistoryReplaceState (url : jsstring) : PageEff unit
| SignOut : PageEff unit
| GetElementById (id : jsstring) : PageEff (option N)
| ScrollIntoView (element : N) (behavior : jsstring) : PageEff unit.

Arguments FormCall {X} e.

Inductive PageProg (A : Type) : Type :=
| PRet (a : A)
| PVis (X : Type) (e : PageEff X) (k : X -> PageProg A).

Arguments PRet {A} a.
Arguments PVis {A X} e k.

Fixpoint page_bind {A B : Type} (f : A -> PageProg B) (p : PageProg A) : PageProg B :=
  match p with
  | PRet a => f a
  | PVis e k => PVis e (fun x => page_bind f (k x))
  end.

#[global] Instance PageProg_ret : MRet PageProg := @PRet.
#[global] Instance PageProg_bind : MBind PageProg := @page_bind.

Definition pcall {X : Type} (e : PageEff X) : PageProg X := PVis e PRet.

Inductive PageEvent : Type :=
| PEv (X : Type) (e : PageEff X) (x : X).

Arguments PEv {X} e x.

Definition PageHandler (W : Type) : Type := forall X : Type, PageEff X -> W -> X * W.

Fixpoint page_exec {W A : Type} (h : PageHandler W) (p : PageProg A) (w : W)
  : A * list PageEvent * W :=
  match p with
  | PRet a => (a, [], w)
  | PVis e k =>
      let '(x, w1) := h _ e w in
      let '(a, tr, w2) := page_exec h (k x) w1 in
      (a, PEv e x :: tr, w2)
  end.

Definition page_trace {A W : Type} (r : A * list PageEvent * W) : list PageEvent :=
  snd (fst r).

Fixpoint page_all_runs {A : Type} (p : PageProg A) (Q : list PageEvent -> A -> Prop) : Prop :=
  match p with
  | PRet a => Q [] a
  | PVis e k => forall x, page_all_runs (k x) (fun tr a => Q (PEv e x :: tr) a)
  end.

(** [setIsSocialLoading(v)] *)
Definition set_isSocialLoading (v : option Provider) (st : State) : State :=
  {| isLogin := isLogin st; showPassword := showPassword st;
     showConfirmPassword := showConfirmPassword st; isLoading := isLoading st;
     isSocialLoading := v; rememberMe := rememberMe st;
     formData := formData st; errors := errors st;
     emailValidation := emailValidation st; phoneValidation := phoneValidation st;
     touchedFields := touchedFields st |}.

Definition page_commit_event (st : State) (ev : PageEvent) : State :=
  match ev with
  | PEv e _ =>
      match e with
      | FormCall e' => match e' with SetState s => apply_setter s st | _ => st end
      | SetIsSocialLoading v => set_isSocialLoading v st
      | _ => st
      end
  end.

Definition page_commit (tr : list PageEvent) (st : State) : State :=
  fold_left page_commit_event tr st.

(** The provider identifier as a string. *)
Definition provider_id (p : Provider) : jsstring :=
  match p with
  | google => lit "google"
  | facebook => lit "facebook"
  end.

Definition socialFailedDialog (p : Provider) : Swal.Options :=
  errorDialog
    ((match p with google => lit "Google" | facebook => lit "Facebook" end)
       ++ lit " Authentication Failed")
    (lit "There was an error connecting to your account. Please try again.").

(** The provider calls resolve in this model, so the [finally] block is the
    last statement of every run. *)
Definition handleSocialAuth (provider : Provider) : PageProg unit :=
  _ ← pcall (SetIsSocialLoading (Some provider));
  origin ← pcall (FormCall WindowLocationOrigin);
  r ← pcall (SignInWithOAuth provider origin);
  _ ← match AuthResponse.error r with
      | Some error =>
          _ ← pcall (ConsoleErrorAuth (provider_id provider ++ lit " auth error:") error);
          _ ← pcall (FormCall (SwalFire (socialFailedDialog provider)));
          _ ← pcall (FormCall SwalSettled);
          mret tt
      | None => mret tt
      end;
  pcall (SetIsSocialLoading None).

(** [s.startsWith(pat)] and [s.includes(pat)] *)
Fixpoint starts_with (pat s : jsstring) : bool :=
  match pat, s with
  | [], _ => true
  | p :: pat', c :: s' => (p =? c) && starts_with pat' s'
  | _ :: _, [] => false
  end.

Fixpoint includes (s pat : jsstring) : bool :=
  starts_with pat s ||
  match s with
  | [] => false
  | _ :: s' => includes s' pat
  end.

Definition verifiedDialog : Swal.Options := {|
  Swal.icon := Swal.success;
  Swal.title := lit "Akun terverifikasi";
  Swal.text := lit "Silakan sign in dengan akun Anda yang sudah terdaftar.";
  Swal.showCancelButton := None; Swal.confirmButtonText := None;
  Swal.cancelButtonText := None; Swal.confirmButtonColor := Some red;
  Swal.cancelButtonColor := None; Swal.timer := None;
  Swal.timerProgressBar := None; Swal.showConfirmButton := None
|}.

Definition socialSuccessDialog : Swal.Options := {|
  Swal.icon := Swal.success;
  Swal.title := lit "Login berhasil!";
  Swal.text := lit "Anda akan diarahkan ke halaman utama dalam 2 detik.";
  Swal.showCancelButton := None; Swal.confirmButtonText := None;
  Swal.cancelButtonText := None; Swal.confirmButtonColor := Some red;
  Swal.cancelButtonColor := None; Swal.timer := Some 2000;
  Swal.timerProgressBar := Some true; Swal.showConfirmButton := Some false
|}.

(** [session?.user?.app_metadata?.provider !== "email"], the provider being
    [None] when the chain yields [undefined]. *)
Definition provider_not_email (provider : option jsstring) : bool :=
  match provider with
  | Some p => negb (str_eqb p (lit "email"))
  | None => true
  end.

(** The callback given to [supabase.auth.onAuthStateChange]; of the session
    only the provider is read. *)
Definition onAuthStateChange (event : jsstring) (provider : option jsstring)
  : PageProg unit :=
  if str_eqb event (lit "INITIAL_SESSION") then mret tt
  else if str_eqb event (lit "SIGNED_IN") then
    hash ← pcall WindowLocationHash;
    if includes hash (lit "type=signup") then
      pathname ← pcall WindowLocationPathname;
      search ← pcall WindowLocationSearch;
      _ ← pcall (HistoryReplaceState (pathname ++ search));
      _ ← pcall SignOut;
      _ ← pcall (FormCall (SwalFire verifiedDialog));
      _ ← pcall (FormCall SwalSettled);
      pcall (FormCall (SetState (setIsLogin (SetTo true))))
    else if provider_not_email provider then
      _ ← pcall (FormCall (SwalFire socialSuccessDialog));
      _ ← pcall (FormCall SwalSettled);
      pcall (FormCall (Navigate (lit "/")))
    else mret tt
  else mret tt.

(** [scrollToSection] of the landing page (HeroSection.tsx). *)
Definition scrollToSection (id : jsstring) : PageProg unit :=
  element ← pcall (GetElementById id);
  match element with
  | Some el => pcall (ScrollIntoView el (lit "smooth"))
  | None => mret tt
  end.

(** Calls read off a page trace. *)
Definition page_form_event (ev : PageEvent) : option Event :=
  match ev with
  | @PEv X e x =>
      match e in PageEff T return T -> option Event with
      | FormCall e' => fun y => Some (Ev e' y)
      | _ => fun _ => None
      end x
  end.

(** The form-level calls of a page trace. *)
Definition form_events (tr : list PageEvent) : list Event :=
  omap page_form_event tr.

Definition oauth_of (ev : PageEvent) : option (Provider * jsstring) :=
  match ev with
  | PEv e _ => match e with SignInWithOAuth p r => Some (p, r) | _ => None end
  end.

Definition oauthCalls (tr : list PageEvent) : list (Provider * jsstring) :=
  omap oauth_of tr.

Definition is_SignOut (ev : PageEvent) : bool :=
  match ev with
  | PEv e _ => match e with SignOut => true | _ => false end
  end.

Definition replaceState_of (ev : PageEvent) : option jsstring :=
  match ev with
  | PEv e _ => match e with HistoryReplaceState u => Some u | _ => None end
  end.

Definition scroll_of (ev : PageEvent) : option (N * jsstring) :=
  match ev with
  | PEv e _ => match e with ScrollIntoView el b => Some (el, b) | _ => None end
  end.

Definition scrolls (tr : list PageEvent) : list (N * jsstring) :=
  omap scroll_of tr.

Definition oauth_answer (ev : PageEvent) : option AuthResponse.t :=
  match ev with
  | @PEv X e x =>
      match e in PageEff T return T -> option AuthResponse.t with
      | SignInWithOAuth _ _ => fun r => Some r
      | _ => fun _ => None
      end x
  end.

Definition oauth_answers (tr : list PageEvent) : list AuthResponse.t :=
  omap oauth_answer tr.

Definition hash_of (ev : PageEvent) : option jsstring :=
  match ev with
  | @PEv X e x =>
      match e in PageEff T return T -> option jsstring with
      | WindowLocationHash => fun v => Some v
      | _ => fun _ => None
      end x
  end.

(** The values read from [window.location.hash]. *)
Definition hashes (tr : list PageEvent) : list jsstring :=
  omap hash_of tr.

Definition path_of (ev : PageEvent) : option jsstring :=
  match ev with
  | @PEv X e x =>
      match e in PageEff T return T -> option jsstring with
      | WindowLocationPathname => fun v => Some v
      | WindowLocationSearch => fun v => Some v
      | _ => fun _ => None
      end x
  end.

(** The values read from [window.location.pathname] and [.search], in
    order. *)
Definition path_parts (tr : list PageEvent) : list jsstring :=
  omap path_of tr.

Definition replaceStates (tr : list PageEvent) : list jsstring :=
  omap replaceState_of tr.

Definition signOuts (tr : list PageEvent) : list PageEvent :=
  List.filter is_SignOut tr.

Definition lookup_of (ev : PageEvent) : option (jsstring * option N) :=
  match ev with
  | @PEv X e x =>
      match e in PageEff T return T -> option (jsstring * option N) with
      | GetElementById id => fun el => Some (id, el)
      | _ => fun _ => None
      end x
  end.

(** The element lookups of a trace, with what was found. *)
Definition element_lookups (tr : list PageEvent) : list (jsstring * option N) :=
  omap lookup_of tr.

(** A page handler for closed examples. *)
Definition constPageHandler (a : AuthResponse.t) (hash : jsstring) (el : option N)
  : PageHandler unit :=
  fun X e w =>
    match e in PageEff T return T * unit with
    | FormCall e' => constHandler {| QueryResponse.data := None; QueryResponse.error := None |}
                       a false e' w
    | SignInWithOAuth _ _ => (a, w)
    | ConsoleErrorAuth _ _ => (tt, w)
    | SetIsSocialLoading _ => (tt, w)
    | WindowLocationHash => (hash, w)
    | WindowLocationPathname => (lit "/auth", w)
    | WindowLocationSearch => ([], w)
    | HistoryReplaceState _ => (tt, w)
    | SignOut => (tt, w)
    | GetElementById _ => (el, w)
    | ScrollIntoView _ _ => (tt, w)
    end.

(** * Properties *)

(** ** The matcher decides the language *)

Section RegexTheory.

Lemma app_nil_inv (A : Type) (s t : list A) : s ++ t = [] -> s = [] /\ t = [].
Proof. destruct s; simpl; intros H; [auto | discriminate]. Qed.

Lemma lang_Eps (s : jsstring) : lang Eps s <-> s = [].
Proof. split; intros H; [inv H; reflexivity | subst; constructor]. Qed.

Lemma lang_Class (p : N -> bool) (s : jsstring) :
  lang (Class p) s <-> exists c, s = [c] /\ holds p c.
Proof.
  split.
  - intros H. inv H. eauto.
  - intros (c & -> & Hc). constructor; assumption.
Qed.

Lemma lang_Chr (a : ascii) (s : jsstring) : lang (Chr a) s <-> s = [cu a].
Proof.
  unfold Chr. rewrite lang_Class. split.
  - intros (c & -> & Hc). apply N.eqb_eq in Hc. congruence.
  - intros ->. exists (cu a). split; [reflexivity | apply N.eqb_refl].
Qed.

Lemma lang_Cat (a b : regex) (s : jsstring) :
  lang (Cat a b) s <-> exists u v, s = u ++ v /\ lang a u /\ lang b v.
Proof.
  split.
  - intros H. inv H. eauto.
  - intros (u & v & -> & Hu & Hv). constructor; assumption.
Qed.

Lemma lang_Alt (a b : regex) (s : jsstring) :
  lang (Alt a b) s <-> lang a s \/ lang b s.
Proof.
  split.
  - intros H. inv H; auto.
  - intros [H | H]; [apply LAltL | apply LAltR]; assumption.
Qed.

Lemma nullable_lang (r : regex) : nullable r = true <-> lang r [].
Proof.
  split.
  - induction r; simpl; intros H; try discriminate.
    + constructor.
    + apply andb_true_iff in H as [Ha Hb].
      change (@nil N) with (@nil N ++ []). constructor; auto.
    + apply orb_true_iff in H as [Ha | Hb]; [apply LAltL | apply LAltR]; auto.
    + constructor.
  - intros H. remember (@nil N) as s eqn:Es.
    induction H; simpl; subst; try reflexivity; try discriminate.
    + apply app_nil_inv in Es as [-> ->]. rewrite IHlang1, IHlang2; auto.
    + rewrite IHlang; auto.
    + rewrite IHlang; auto using orb_true_r.
Qed.

Lemma deriv_sound (c : N) (r : regex) (s : jsstring) :
  lang (deriv c r) s -> lang r (c :: s).
Proof.
  revert s. induction r; simpl; intros s H.
  - inv H.
  - inv H.
  - destruct (p c) eqn:Ep; [|inv H]. apply lang_Eps in H as ->.
    constructor; assumption.
  - assert (Hcat : forall s, lang (Cat (deriv c r1) r2) s -> lang (Cat r1 r2) (c :: s)).
    { intros s' H'. apply lang_Cat in H' as (u & v & -> & Hu & Hv).
      change (c :: u ++ v) with ((c :: u) ++ v). constructor; auto. }
    destruct (nullable r1) eqn:En; [|auto].
    apply lang_Alt in H as [H | H]; [auto|].
    change (c :: s) with ([] ++ c :: s). constructor; auto.
    apply nullable_lang; assumption.
  - apply lang_Alt in H as [H | H]; [apply LAltL | apply LAltR]; auto.
  - apply lang_Cat in H as (u & v & -> & Hu & Hv).
    change (c :: u ++ v) with ((c :: u) ++ v). constructor; auto.
Qed.

Lemma deriv_complete (c : N) (r : regex) (s : jsstring) :
  lang r (c :: s) -> lang (deriv c r) s.
Proof.
  intros H. remember (c :: s) as cs eqn:E. revert c s E.
  induction H; intros c0 s0 E; simpl; try discriminate.
  - injection E as -> <-. rewrite H. constructor.
  - destruct s as [|x s'].
    + simpl in E. subst t.
      assert (Hn : nullable a = true) by (apply nullable_lang; assumption).
      rewrite Hn. apply LAltR. apply IHlang2. reflexivity.
    + simpl in E. injection E as -> <-.
      destruct (nullable a).
      * apply LAltL. constructor; auto.
      * constructor; auto.
  - apply LAltL. auto.
  - apply LAltR. auto.
  - destruct s as [|x s'].
    + simpl in E. apply IHlang2. assumption.
    + simpl in E. injection E as -> <-. constructor; auto.
Qed.

Lemma matches_lang (r : regex) (s : jsstring) : matches r s = true <-> lang r s.
Proof.
  revert r. induction s as [|c s IH]; intros r; simpl.
  - apply nullable_lang.
  - rewrite IH. split; [apply deriv_sound | apply deriv_complete].
Qed.

Lemma matches_false (r : regex) (s : jsstring) : matches r s = false <-> ~ lang r s.
Proof.
  rewrite <- matches_lang. destruct (matches r s); split; intros H; congruence.
Qed.

Lemma lang_Star_Class (p : N -> bool) (s : jsstring) :
  lang (Star (Class p)) s <-> Forall (holds p) s.
Proof.
  split.
  - intros H. remember (Star (Class p)) as r eqn:Er.
    induction H; try discriminate.
    + constructor.
    + injection Er as ->. inv H. simpl. constructor; auto.
  - induction 1 as [|c l Hc _ IH].
    + constructor.
    + change (c :: l) with ([c] ++ l). constructor; [constructor|]; assumption.
Qed.

Lemma lang_Plus_Class (p : N -> bool) (s : jsstring) :
  lang (Plus (Class p)) s <-> s <> [] /\ Forall (holds p) s.
Proof.
  unfold Plus. rewrite lang_Cat. split.
  - intros (u & v & -> & Hu & Hv). apply lang_Class in Hu as (c & -> & Hc).
    apply lang_Star_Class in Hv. split; [discriminate | constructor; assumption].
  - intros [Hne Hall]. destruct s as [|c l]; [congruence|].
    inv Hall. exists [c], l. split; [reflexivity|]. split.
    + constructor; assumption.
    + apply lang_Star_Class; assumption.
Qed.

Lemma lang_Power_Class (p : N -> bool) (n : nat) (s : jsstring) :
  lang (Power n (Class p)) s <-> List.length s = n /\ Forall (holds p) s.
Proof.
  revert s. induction n as [|n IH]; intros s; simpl.
  - rewrite lang_Eps. split.
    + intros ->. split; [reflexivity | constructor].
    + intros [H _]. destruct s; [reflexivity | discriminate].
  - rewrite lang_Cat. split.
    + intros (u & v & -> & Hu & Hv). apply lang_Class in Hu as (c & -> & Hc).
      apply IH in Hv as [Hl Hall]. simpl. split; [congruence | constructor; assumption].
    + intros [Hl Hall]. destruct s as [|c l]; [discriminate|].
      inv Hall. exists [c], l. split; [reflexivity|]. split.
      * constructor; assumption.
      * apply IH. simpl in Hl. split; [congruence | assumption].
Qed.

Lemma lang_Power_Opt_Class (p : N -> bool) (n : nat) (s : jsstring) :
  lang (Power n (Opt (Class p))) s <-> (List.length s <= n)%nat /\ Forall (holds p) s.
Proof.
  revert s. induction n as [|n IH]; intros s; simpl.
  - rewrite lang_Eps. split.
    + intros ->. split; [reflexivity | constructor].
    + intros [H _]. destruct s; [reflexivity | simpl in H; lia].
  - rewrite lang_Cat. split.
    + intros (u & v & -> & Hu & Hv). apply IH in Hv as [Hl Hall].
      unfold Opt in Hu. apply lang_Alt in Hu as [Hu | Hu].
      * apply lang_Class in Hu as (c & -> & Hc). simpl.
        split; [lia | constructor; assumption].
      * apply lang_Eps in Hu as ->. simpl. split; [lia | assumption].
    + intros [Hl Hall]. destruct s as [|c l].
      * exists [], []. split; [reflexivity|]. split.
        -- apply LAltR. constructor.
        -- apply IH. split; [simpl; lia | constructor].
      * inv Hall. exists [c], l. split; [reflexivity|]. split.
        -- apply LAltL. constructor; assumption.
        -- apply IH. simpl in Hl. split; [lia | assumption].
Qed.

Lemma lang_Repeat_Class (p : N -> bool) (lo hi : nat) (s : jsstring) :
  (lo <= hi)%nat ->
  lang (Repeat lo hi (Class p)) s <->
  (lo <= List.length s <= hi)%nat /\ Forall (holds p) s.
Proof.
  intros Hle. unfold Repeat. rewrite lang_Cat. split.
  - intros (u & v & -> & Hu & Hv).
    apply lang_Power_Class in Hu as [Hlu Hu].
    apply lang_Power_Opt_Class in Hv as [Hlv Hv].
    rewrite length_app. split; [lia | apply Forall_app; auto].
  - intros [Hl Hall].
    exists (firstn lo s), (skipn lo s). split; [symmetry; apply firstn_skipn|].
    rewrite <- (firstn_skipn lo s) in Hall. apply Forall_app in Hall as [H1 H2].
    split.
    + apply lang_Power_Class. split; [|assumption].
      rewrite length_firstn. lia.
    + apply lang_Power_Opt_Class. split; [|assumption].
      rewrite length_skipn. lia.
Qed.

(** A pattern anchored at both ends tests the whole string. *)
Lemma test_anchored (p : pattern) (s : jsstring) :
  anchor_start p = true -> anchor_end p = true ->
  test p s = true <-> lang (body p) s.
Proof.
  intros Hs He. unfold test. rewrite Hs, He, matches_lang. split.
  - intros H. apply lang_Cat in H as (u & v & -> & Hu & Hv).
    apply lang_Eps in Hu as ->.
    apply lang_Cat in Hv as (u & w & -> & Hu & Hw).
    apply lang_Eps in Hw as ->. simpl. rewrite app_nil_r. assumption.
  - intros H. change s with ([] ++ s). constructor; [constructor|].
    rewrite <- (app_nil_r s). constructor; [assumption | constructor].
Qed.

Lemma lang_Star_AnyUnit (s : jsstring) : lang (Star AnyUnit) s.
Proof.
  apply lang_Star_Class. induction s; constructor; auto. reflexivity.
Qed.

(** An unanchored single-class pattern tests for a member of the class. *)
Lemma test_search_class (p : N -> bool) (s : jsstring) :
  test (search_class p) s = true <-> exists c, In c s /\ holds p c.
Proof.
  unfold test, search_class. simpl. rewrite matches_lang. split.
  - intros H. apply lang_Cat in H as (u & v & -> & _ & Hv).
    apply lang_Cat in Hv as (x & w & -> & Hx & _).
    apply lang_Class in Hx as (c & -> & Hc).
    exists c. split; [|assumption]. apply in_or_app. right. left. reflexivity.
  - intros (c & Hin & Hc). apply in_split in Hin as (u & w & ->).
    constructor; [apply lang_Star_AnyUnit|].
    change (c :: w) with ([c] ++ w). constructor.
    + constructor; assumption.
    + apply lang_Star_AnyUnit.
Qed.

Lemma test_search_class_existsb (p : N -> bool) (s : jsstring) :
  test (search_class p) s = existsb p s.
Proof.
  apply eq_true_iff_eq. rewrite test_search_class, existsb_exists. reflexivity.
Qed.

End RegexTheory.

Example validateEmail_ex1 : validateEmail (lit "taken@example.com") = true.
Proof. vm_compute. reflexivity. Qed.

Example validateEmail_ex2 : validateEmail (lit "a b@example.com") = false.
Proof. vm_compute. reflexivity. Qed.

Example validatePhone_ex1 : validatePhone (lit "+62 812 3456 789") = true.
Proof. vm_compute. reflexivity. Qed.

Example validatePhone_ex2 : validatePhone (lit "0812345") = false.
Proof. vm_compute. reflexivity. Qed.

Example strength_ex1 : score (calculatePasswordStrength (lit "Passw0rd!")) = 5%nat.
Proof. vm_compute. reflexivity. Qed.

(** ** Email validator *)

Lemma validateEmail_iff (s : jsstring) : validateEmail s = true <-> email_shape s.
Proof.
  unfold validateEmail. rewrite test_anchored by reflexivity.
  unfold emailRegex, email_shape. simpl body.
  split.
  - intros H.
    apply lang_Cat in H as (l & r1 & -> & Hl & H).
    apply lang_Cat in H as (at_ & r2 & -> & Hat & H).
    apply lang_Cat in H as (d & r3 & -> & Hd & H).
    apply lang_Cat in H as (dot & t & -> & Hdot & Ht).
    apply lang_Chr in Hat as ->. apply lang_Chr in Hdot as ->.
    apply lang_Plus_Class in Hl as [? ?].
    apply lang_Plus_Class in Hd as [? ?].
    apply lang_Plus_Class in Ht as [? ?].
    exists l, d, t. repeat split; assumption.
  - intros (l & d & t & -> & Hl & Hd & Ht & Al & Ad & At).
    constructor; [apply lang_Plus_Class; auto|].
    constructor; [apply lang_Chr; reflexivity|].
    constructor; [apply lang_Plus_Class; auto|].
    constructor; [apply lang_Chr; reflexivity|].
    apply lang_Plus_Class; auto.
Qed.

Lemma email_shape_dot_after_at (s : jsstring) : email_shape s -> dot_after_at s.
Proof.
  intros (l & d & t & -> & _). exists l, (d ++ [cu "."] ++ t).
  split; [reflexivity|]. apply in_or_app. right. left. reflexivity.
Qed.

Lemma dot_after_at_has_at (s : jsstring) : dot_after_at s -> In (cu "@") s.
Proof.
  intros (a & b & -> & _). apply in_or_app. right. left. reflexivity.
Qed.

Lemma dot_after_atb_iff (s : jsstring) : dot_after_atb s = true <-> dot_after_at s.
Proof.
  induction s as [|c r IH]; simpl.
  - split; [discriminate|]. intros (a & b & E & _). destruct a; discriminate.
  - rewrite orb_true_iff, andb_true_iff, N.eqb_eq, existsb_exists, IH. split.
    + intros [[-> (x & Hin & Hx)] | (a & b & -> & Hin)].
      * apply N.eqb_eq in Hx. subst x. exists [], r. auto.
      * exists (c :: a), b. auto.
    + intros (a & b & E & Hin). destruct a as [|x a]; simpl in E; injection E as -> ->.
      * left. split; [reflexivity|]. exists (cu "."). split; [exact Hin | reflexivity].
      * right. exists a, b. auto.
Qed.

Lemma validateEmail_false_of (s : jsstring) : ~ dot_after_at s -> validateEmail s = false.
Proof.
  intros H. destruct (validateEmail s) eqn:E; [|reflexivity].
  exfalso. apply H, email_shape_dot_after_at, validateEmail_iff, E.
Qed.

(** C2. Every string of the shape [local@domain.tld] (non-empty runs of
    characters other than whitespace and [@], separated by [@] and a dot) is
    accepted by the email validator; every string without [@], and every
    string without a dot after an [@], is rejected; so is the empty
    string. *)
Theorem validateEmail_spec (s : jsstring) :
  (email_shape s -> validateEmail s = true) /\
  (~ In (cu "@") s -> validateEmail s = false) /\
  (~ dot_after_at s -> validateEmail s = false) /\
  validateEmail [] = false.
Proof.
  split; [apply validateEmail_iff|].
  split; [|split; [apply validateEmail_false_of | reflexivity]].
  intros H. apply validateEmail_false_of. intros D. apply H, dot_after_at_has_at, D.
Qed.

Lemma validateEmail_spec_witness :
  email_shape (lit "taken@example.com") /\
  validateEmail (lit "taken@example.com") = true /\
  validateEmail (lit "taken.example.com") = false /\
  validateEmail (lit "taken.example@com") = false.
Proof.
  assert (Hs : email_shape (lit "taken@example.com")).
  { exists (lit "taken"), (lit "example"), (lit "com").
    split; [reflexivity|].
    repeat split; try discriminate;
      repeat (constructor; [vm_compute; reflexivity|]); constructor. }
  split; [exact Hs|]. split; [|split].
  - exact (proj1 (validateEmail_spec (lit "taken@example.com")) Hs).
  - apply (proj1 (proj2 (validateEmail_spec (lit "taken.example.com")))).
    vm_compute. intuition discriminate.
  - apply (proj1 (proj2 (proj2 (validateEmail_spec (lit "taken.example@com"))))).
    rewrite <- dot_after_atb_iff. vm_compute. discriminate.
Defined.

(** ** Phone validator *)

Lemma is_digit_1_9_iff (c : N) :
  is_digit_1_9 c = true <-> is_digit c = true /\ c <> cu "0".
Proof.
  unfold is_digit_1_9, is_digit, in_range.
  change (cu "0") with 48. change (cu "1") with 49. change (cu "9") with 57.
  rewrite !andb_true_iff, !N.leb_le. lia.
Qed.

Lemma phoneRegex_lang (s : jsstring) : lang (body phoneRegex) s <-> phone_shape s.
Proof.
  unfold phoneRegex, phone_shape. simpl body. split.
  - intros H.
    apply lang_Cat in H as (sign & r1 & -> & Hsign & H).
    apply lang_Cat in H as (d1 & r2 & -> & Hd1 & Hr).
    apply lang_Class in Hd1 as (c & -> & Hc).
    apply lang_Repeat_Class in Hr as [Hlen Hall]; [|lia].
    apply is_digit_1_9_iff in Hc as [Hc Hnz].
    exists sign, ([c] ++ r2). split; [reflexivity|]. split.
    { unfold Opt in Hsign. apply lang_Alt in Hsign as [Hs | Hs].
      - apply lang_Chr in Hs. auto.
      - apply lang_Eps in Hs. auto. }
    simpl. split; [lia|]. split; [constructor; assumption|].
    intros E. injection E as E. contradiction.
  - intros (sign & ds & -> & Hsign & Hlen & Hall & Hhd).
    destruct ds as [|c r]; [simpl in Hlen; lia|].
    inv Hall. simpl in Hlen.
    constructor.
    { destruct Hsign as [-> | ->].
      - apply LAltR. constructor.
      - apply LAltL. apply lang_Chr. reflexivity. }
    change (c :: r) with ([c] ++ r). constructor.
    + constructor. apply is_digit_1_9_iff. split; [assumption|].
      intros ->. apply Hhd. reflexivity.
    + apply lang_Repeat_Class; [lia|]. split; [lia | assumption].
Qed.

Lemma replace_spaces_In (s : jsstring) (c : N) :
  In c (replace_spaces s) <-> In c s /\ is_space c = false.
Proof.
  unfold replace_spaces. rewrite filter_In, negb_true_iff. reflexivity.
Qed.

Lemma replace_spaces_id (s : jsstring) :
  Forall (fun c => is_space c = false) s -> replace_spaces s = s.
Proof.
  unfold replace_spaces. induction 1 as [|c l Hc _ IH]; simpl; [reflexivity|].
  rewrite Hc. simpl. f_equal. exact IH.
Qed.

(** C3. The phone validator removes every whitespace character from its
    input (the other characters stay, in order) and accepts exactly when
    what is left is an optional [+] followed by 2 to 15 digits of which the
    first is not [0]. *)
Theorem validatePhone_spec (s : jsstring) :
  (forall c, In c (replace_spaces s) <-> In c s /\ is_space c = false) /\
  (Forall (fun c => is_space c = false) s -> replace_spaces s = s) /\
  (validatePhone s = true <-> phone_shape (replace_spaces s)).
Proof.
  split; [intros c; apply replace_spaces_In|].
  split; [apply replace_spaces_id|].
  unfold validatePhone. rewrite test_anchored by reflexivity.
  apply phoneRegex_lang.
Qed.

Lemma validatePhone_spec_witness :
  phone_shape (replace_spaces (lit "+62 812 3456 789")) /\
  validatePhone (lit "+62 812 3456 789") = true.
Proof.
  assert (Hs : phone_shape (replace_spaces (lit "+62 812 3456 789"))).
  { exists (lit "+"), (lit "628123456789"). split; [vm_compute; reflexivity|].
    split; [right; reflexivity|]. split; [simpl; lia|]. split.
    - repeat (constructor; [vm_compute; reflexivity|]). constructor.
    - vm_compute. discriminate. }
  split; [exact Hs|].
  exact (proj2 (proj2 (proj2 (validatePhone_spec (lit "+62 812 3456 789")))) Hs).
Defined.

(** ** Password strength *)

Lemma is_special_iff (c : N) : is_special c = true <-> In c special_chars.
Proof.
  unfold is_special. rewrite existsb_exists. split.
  - intros (x & Hin & E). apply N.eqb_eq in E. subst. assumption.
  - intros H. exists c. split; [assumption | apply N.eqb_refl].
Qed.

Lemma in_range_iff (lo hi c : N) : in_range lo hi c = true <-> lo <= c <= hi.
Proof. unfold in_range. rewrite andb_true_iff, !N.leb_le. reflexivity. Qed.

Lemma score_count (password : jsstring) :
  score (calculatePasswordStrength password) =
  count_true (8 <=? List.length password)%nat
    (existsb is_upper password) (existsb is_lower password)
    (existsb is_digit password) (existsb is_special password).
Proof.
  unfold calculatePasswordStrength. cbn [score].
  unfold password_checks, checks.values, count_true.
  cbn [checks.length checks.uppercase checks.lowercase checks.number checks.special].
  rewrite !test_search_class_existsb.
  generalize (8 <=? List.length password)%nat, (existsb is_upper password),
    (existsb is_lower password), (existsb is_digit password),
    (existsb is_special password).
  intros [] [] [] [] []; reflexivity.
Qed.

Lemma score_le_5 (password : jsstring) :
  (score (calculatePasswordStrength password) <= 5)%nat.
Proof.
  rewrite score_count. unfold count_true.
  generalize (8 <=? List.length password)%nat, (existsb is_upper password),
    (existsb is_lower password), (existsb is_digit password),
    (existsb is_special password).
  intros [] [] [] [] []; simpl; lia.
Qed.

Lemma existsb_range (lo hi : N) (s : jsstring) :
  existsb (in_range lo hi) s = true <-> exists c, In c s /\ lo <= c <= hi.
Proof.
  rewrite existsb_exists. split; intros (c & Hin & Hc); exists c;
    (split; [assumption | apply in_range_iff; assumption]).
Qed.

(** C1. The score is the number of satisfied criteria among: at least 8
    code units, some character in A-Z, some in a-z, some in 0-9, some among
    the special characters of the source; the label is the entry of the
    fixed table for that score (0 and 1 Very Weak, 2 Weak, 3 Fair, 4 Good,
    5 Strong). *)
Theorem calculatePasswordStrength_spec (password : jsstring) :
  exists b1 b2 b3 b4 b5 : bool,
    (b1 = true <-> (8 <= List.length password)%nat) /\
    (b2 = true <-> exists c, In c password /\ cu "A" <= c <= cu "Z") /\
    (b3 = true <-> exists c, In c password /\ cu "a" <= c <= cu "z") /\
    (b4 = true <-> exists c, In c password /\ cu "0" <= c <= cu "9") /\
    (b5 = true <-> exists c, In c password /\ In c special_chars) /\
    score (calculatePasswordStrength password) = count_true b1 b2 b3 b4 b5 /\
    label_table (score (calculatePasswordStrength password)) =
      Some (label (calculatePasswordStrength password)).
Proof.
  exists (8 <=? List.length password)%nat, (existsb is_upper password),
    (existsb is_lower password), (existsb is_digit password),
    (existsb is_special password).
  split; [apply Nat.leb_le|].
  split; [apply existsb_range|].
  split; [apply existsb_range|].
  split; [apply existsb_range|].
  split.
  { rewrite existsb_exists. split; intros (c & Hin & Hc); exists c;
      (split; [assumption | apply is_special_iff; assumption]). }
  split; [apply score_count|].
  pose proof (score_le_5 password) as Hle.
  change (label (calculatePasswordStrength password))
    with (arm_label (select_arm (score (calculatePasswordStrength password)))).
  destruct (score (calculatePasswordStrength password)) as [|[|[|[|[|[|n]]]]]];
    try reflexivity; lia.
Qed.

(** C10. For every password, the empty one included, the scorer yields a
    score between 0 and 5 and one of the five labels, and the [default] arm
    of its [switch] is never taken. *)
Theorem calculatePasswordStrength_total (password : jsstring) :
  (0 <= score (calculatePasswordStrength password) <= 5)%nat /\
  In (label (calculatePasswordStrength password))
    [lit "Very Weak"; lit "Weak"; lit "Fair"; lit "Good"; lit "Strong"] /\
  select_arm (score (calculatePasswordStrength password)) <> Case_default /\
  (0 <= score (calculatePasswordStrength []) <= 5)%nat.
Proof.
  pose proof (score_le_5 password) as Hle.
  split; [lia|].
  change (label (calculatePasswordStrength password))
    with (arm_label (select_arm (score (calculatePasswordStrength password)))).
  split; [|split; [|vm_compute; lia]];
    destruct (score (calculatePasswordStrength password)) as [|[|[|[|[|[|n]]]]]];
    simpl; try lia; try discriminate; tauto.
Qed.

(** ** Runs of a program *)

Lemma all_runs_mono (A : Type) (p : Prog A) (Q R : list Event -> A -> Prop) :
  (forall tr a, Q tr a -> R tr a) -> all_runs p Q -> all_runs p R.
Proof.
  revert Q R. induction p as [a | X e k IH]; simpl; intros Q R HQR H.
  - auto.
  - intros x. eapply IH; [|apply H]. simpl. auto.
Qed.

Lemma all_runs_exec (A W : Type) (p : Prog A) (Q : list Event -> A -> Prop)
    (h : Handler W) (w : W) :
  all_runs p Q -> Q (trace_of (exec h p w)) (result_of (exec h p w)).
Proof.
  revert Q w. induction p as [a | X e k IH]; simpl; intros Q w H.
  - exact H.
  - destruct (h X e w) as [x w1].
    specialize (IH x _ w1 (H x)).
    destruct (exec h (k x) w1) as [[a tr] w2]. exact IH.
Qed.

Lemma all_runs_bind (A B : Type) (p : Prog A) (f : A -> Prog B)
    (Q : list Event -> B -> Prop) :
  all_runs p (fun tr a => all_runs (f a) (fun tr' b => Q (tr ++ tr') b)) ->
  all_runs (p ≫= f) Q.
Proof.
  revert Q. induction p as [a | X e k IH]; simpl; intros Q H.
  - exact H.
  - intros x. apply IH. exact (H x).
Qed.

Lemma all_runs_true (A : Type) (p : Prog A) : all_runs p (fun _ _ => True).
Proof. induction p as [a | X e k IH]; simpl; auto. Qed.

(** ** Availability checker *)

Lemma checkEmailAvailability_runs (toLowerCase : jsstring -> jsstring) (email : jsstring) :
  all_runs (checkEmailAvailability toLowerCase email) (fun tr r =>
    (validateEmail email = false -> r = invalidEmailFormat /\ queries tr = []) /\
    (validateEmail email = true ->
     exists resp,
       queries tr = [("email"%string, toLowerCase email, resp)] /\
       (QueryResponse.error resp <> None -> r = emailCheckError) /\
       (QueryResponse.error resp = None ->
        (exists row rows, QueryResponse.data resp = Some (row :: rows)) ->
        r = emailTaken) /\
       (QueryResponse.error resp = None ->
        QueryResponse.data resp = None \/ QueryResponse.data resp = Some [] ->
        r = emailAvailable))).
Proof.
  unfold checkEmailAvailability. simpl. intros [].
  destruct (validateEmail email) eqn:Ev; simpl.
  - intros resp. destruct resp as [data error]. simpl.
    destruct error as [err|]; simpl.
    + intros []. split; [discriminate|]. intros _.
      eexists. split; [reflexivity|]. simpl.
      split; [reflexivity|]. split; discriminate.
    + destruct data as [[|row rows]|]; simpl; (split; [discriminate|]); intros _;
        (eexists; split; [reflexivity|]); simpl.
      * split; [congruence|]. split; [|reflexivity].
        intros _ (row & rows & E). discriminate.
      * split; [congruence|]. split; [reflexivity|].
        intros _ [E | E]; discriminate.
      * split; [congruence|]. split; [|reflexivity].
        intros _ (row & rows & E). discriminate.
  - split; [auto | discriminate].
Qed.

(** C4. Whatever the data service answers, [checkEmailAvailability] returns
    a result [{isValid, message}].  An email that fails the format check
    gives [isValid:false] and no query is made.  Otherwise exactly one query
    is made, for the lower-cased email in column [email]; when it answers
    with an error the result is [isValid:false] with the generic error
    message; when it answers without error and with a row the result is
    [isValid:false], "This email is already registered"; when it answers
    without error and without a row the result is [isValid:true]. *)
Theorem checkEmailAvailability_spec (toLowerCase : jsstring -> jsstring)
    (W : Type) (h : Handler W) (w : W) (email : jsstring) :
  let run := exec h (checkEmailAvailability toLowerCase email) w in
  (validateEmail email = false ->
   result_of run = invalidEmailFormat /\ queries (trace_of run) = []) /\
  (validateEmail email = true ->
   exists resp,
     queries (trace_of run) = [("email"%string, toLowerCase email, resp)] /\
     (QueryResponse.error resp <> None -> result_of run = emailCheckError) /\
     (QueryResponse.error resp = None ->
      (exists row rows, QueryResponse.data resp = Some (row :: rows)) ->
      result_of run = emailTaken) /\
     (QueryResponse.error resp = None ->
      QueryResponse.data resp = None \/ QueryResponse.data resp = Some [] ->
      result_of run = emailAvailable)).
Proof.
  intros run. unfold run.
  exact (@all_runs_exec _ _ _ _ h w (checkEmailAvailability_runs toLowerCase email)).
Qed.
(** The data service reports a profile for [taken@example.com]. *)
Lemma checkEmailAvailability_spec_witness :
  let taken :=
    constHandler
      {| QueryResponse.data := Some [lit "7f3c"]; QueryResponse.error := None |}
      {| AuthResponse.error := None |} false in
  result_of (exec taken (checkEmailAvailability asciiLower (lit "Taken@Example.com")) tt)
  = emailTaken.
Proof.
  intros taken.
  destruct (proj2 (@checkEmailAvailability_spec asciiLower unit taken tt
                     (lit "Taken@Example.com")) eq_refl)
    as (resp & Hq & _ & Htaken & _).
  vm_compute in Hq. injection Hq as <-.
  apply Htaken; [reflexivity|]. eexists _, _. reflexivity.
Defined.

(** ** The error object of [validateForm] *)

Section NewErrors.

Variable st : State.

Lemma lookup_set_error_eq (k : string) (m : jsstring) (e : FormErrors) :
  set_error k m e !! k = Some (Some m).
Proof. apply lookup_insert_eq. Qed.

Lemma lookup_set_error_ne (k k' : string) (m : jsstring) (e : FormErrors) :
  k <> k' -> set_error k m e !! k' = e !! k'.
Proof. intros H. apply lookup_insert_ne. exact H. Qed.

Ltac other_key :=
  intros; repeat case_match; rewrite ?lookup_set_error_ne by congruence; reflexivity.

Lemma check_email_other (e : FormErrors) (k : string) :
  k <> "email"%string -> check_email st e !! k = e !! k.
Proof. unfold check_email. other_key. Qed.

Lemma check_password_other (e : FormErrors) (k : string) :
  k <> "password"%string -> check_password st e !! k = e !! k.
Proof. unfold check_password. other_key. Qed.

Lemma check_fullName_other (e : FormErrors) (k : string) :
  k <> "fullName"%string -> check_fullName st e !! k = e !! k.
Proof. unfold check_fullName. other_key. Qed.

Lemma check_confirmPassword_other (e : FormErrors) (k : string) :
  k <> "confirmPassword"%string -> check_confirmPassword st e !! k = e !! k.
Proof. unfold check_confirmPassword. other_key. Qed.

Lemma check_phone_other (e : FormErrors) (k : string) :
  k <> "phone"%string -> check_phone st e !! k = e !! k.
Proof. unfold check_phone. other_key. Qed.

Lemma check_email_pending_other (e : FormErrors) (k : string) :
  k <> "email"%string -> check_email_pending st e !! k = e !! k.
Proof. unfold check_email_pending. other_key. Qed.

Lemma check_phone_pending_other (e : FormErrors) (k : string) :
  k <> "phone"%string -> check_phone_pending st e !! k = e !! k.
Proof. unfold check_phone_pending. other_key. Qed.

(** The email entry in register mode: the pending check overwrites whatever
    the format and verdict checks wrote. *)
Lemma newErrors_email_register :
  isLogin st = false ->
  newErrors st !! "email"%string =
  if Validation.isChecking (emailValidation st)
  then Some (Some (lit "Please wait while we check email availability"))
  else check_email st ∅ !! "email"%string.
Proof.
  intros Hl. unfold newErrors. rewrite Hl. simpl negb. cbv iota.
  rewrite check_phone_pending_other by discriminate.
  unfold check_email_pending.
  destruct (Validation.isChecking (emailValidation st)).
  - apply lookup_set_error_eq.
  - rewrite check_phone_other, check_confirmPassword_other,
      check_fullName_other, check_password_other by discriminate.
    reflexivity.
Qed.

Lemma isValid_false_iff (v : Validation.t) :
  isValid_false v = true <-> Validation.isValid v = Some false.
Proof.
  unfold isValid_false. destruct (Validation.isValid v) as [[|]|];
    split; congruence.
Qed.

Lemma check_email_none :
  isLogin st = false ->
  check_email st ∅ !! "email"%string = None <->
  truthy (FormData.email (formData st)) = true /\
  validateEmail (FormData.email (formData st)) = true /\
  Validation.isValid (emailValidation st) <> Some false.
Proof.
  intros Hl. unfold check_email. rewrite Hl. simpl negb. rewrite andb_true_l.
  rewrite <- isValid_false_iff.
  destruct (truthy (FormData.email (formData st)));
    destruct (validateEmail (FormData.email (formData st)));
    destruct (isValid_false (emailValidation st)); simpl;
    rewrite ?lookup_set_error_eq, ?lookup_empty; intuition congruence.
Qed.

Lemma newErrors_email_none :
  isLogin st = false ->
  newErrors st !! "email"%string = None <-> email_gate_open st.
Proof.
  intros Hl. rewrite newErrors_email_register by exact Hl.
  unfold email_gate_open.
  destruct (Validation.isChecking (emailValidation st)).
  - split; [discriminate | intros (_ & _ & H & _); discriminate].
  - rewrite check_email_none by exact Hl. tauto.
Qed.

(** The password entry. *)
Lemma newErrors_password :
  newErrors st !! "password"%string = check_password st ∅ !! "password"%string.
Proof.
  assert (E : forall e, check_password st (check_email st e) !! "password"%string
                        = check_password st e !! "password"%string).
  { intros e. unfold check_password.
    repeat case_match; rewrite ?lookup_set_error_eq; try reflexivity.
    apply check_email_other. discriminate. }
  unfold newErrors. destruct (negb (isLogin st)).
  - rewrite check_phone_pending_other, check_email_pending_other, check_phone_other,
      check_confirmPassword_other, check_fullName_other by discriminate.
    apply E.
  - apply E.
Qed.

Lemma passes_iff_empty : (size (newErrors st) =? 0)%nat = true <-> newErrors st = ∅.
Proof. rewrite Nat.eqb_eq. apply map_size_empty_iff. Qed.

Lemma fails_of_entry (k : string) (v : option jsstring) :
  newErrors st !! k = Some v -> (size (newErrors st) =? 0)%nat = false.
Proof.
  intros H. destruct (size (newErrors st) =? 0)%nat eqn:E; [|reflexivity].
  apply passes_iff_empty in E. rewrite E, lookup_empty in H. discriminate.
Qed.

(** In login mode only the email and password blocks run, and they do not
    read the availability-check results. *)
Lemma newErrors_login :
  isLogin st = true ->
  newErrors st =
  (let e :=
     if negb (truthy (FormData.email (formData st))) then
       set_error "email" (lit "Email is required") ∅
     else if negb (validateEmail (FormData.email (formData st))) then
       set_error "email" (lit "Please enter a valid email address") ∅
     else ∅ in
   if negb (truthy (FormData.password (formData st))) then
     set_error "password" (lit "Password is required") e
   else e).
Proof.
  intros Hl. unfold newErrors, check_password, check_email. rewrite Hl. reflexivity.
Qed.

End NewErrors.

Lemma newErrors_with_validations (st : State) (ev pv : Validation.t) :
  isLogin st = true -> newErrors (with_validations ev pv st) = newErrors st.
Proof.
  intros Hl. rewrite !newErrors_login by exact Hl. reflexivity.
Qed.

(** ** Submission *)

Lemma newErrors_email_pending (st : State) :
  isLogin st = false ->
  Validation.isChecking (emailValidation st) = true ->
  newErrors st !! "email"%string =
  Some (Some (lit "Please wait while we check email availability")).
Proof.
  intros Hl Hc. rewrite newErrors_email_register by exact Hl. rewrite Hc. reflexivity.
Qed.

Lemma validateForm_runs (st : State) :
  all_runs (validateForm st) (fun tr ok =>
    ok = (size (newErrors st) =? 0)%nat /\
    forall s, errors (commit tr s) = newErrors st).
Proof. unfold validateForm. simpl. intros []. split; reflexivity. Qed.

Lemma handleSubmit_blocked_runs (st : State) :
  (size (newErrors st) =? 0)%nat = false ->
  all_runs (handleSubmit st) (fun tr _ =>
    errors (commit tr st) = newErrors st /\
    List.filter is_SignUp tr = [] /\
    signIn_answers tr = [] /\
    dialogs tr = [validationErrorDialog]).
Proof.
  intros Hs. unfold handleSubmit, validateForm. simpl. intros [] [].
  rewrite Hs. simpl. intros []. repeat split; reflexivity.
Qed.

(** C5. In register mode, while the email availability check is flagged as
    running, submitting the form stores the error asking to wait on the
    email field, [validateForm] returns [false], the only dialog opened is
    the validation error and no sign-up call is made. *)
Theorem submit_while_checking (W : Type) (h : Handler W) (w : W) (st : State) :
  isLogin st = false ->
  Validation.isChecking (emailValidation st) = true ->
  let run := exec h (handleSubmit st) w in
  errors (commit (trace_of run) st) !! "email"%string =
    Some (Some (lit "Please wait while we check email availability")) /\
  result_of (exec h (validateForm st) w) = false /\
  List.filter is_SignUp (trace_of run) = [] /\
  dialogs (trace_of run) = [validationErrorDialog].
Proof.
  intros Hl Hc run.
  pose proof (newErrors_email_pending st Hl Hc) as He.
  pose proof (fails_of_entry _ _ He) as Hs.
  destruct (@all_runs_exec _ _ _ _ h w (handleSubmit_blocked_runs st Hs))
    as (E1 & E2 & _ & E4).
  destruct (@all_runs_exec _ _ _ _ h w (validateForm_runs st)) as (E5 & _).
  fold run in E1, E2, E4.
  rewrite E1, E5. auto.
Qed.

Lemma submit_while_checking_witness :
  let run := exec quietWorld (handleSubmit pending_register_state) tt in
  errors (commit (trace_of run) pending_register_state) !! "email"%string =
    Some (Some (lit "Please wait while we check email availability")) /\
  result_of (exec quietWorld (validateForm pending_register_state) tt) = false /\
  List.filter is_SignUp (trace_of run) = [] /\
  dialogs (trace_of run) = [validationErrorDialog].
Proof.
  apply (@submit_while_checking unit quietWorld tt pending_register_state);
    reflexivity.
Defined.

Lemma handleSubmit_signUp_runs (st : State) :
  all_runs (handleSubmit st) (fun tr _ =>
    List.filter is_SignUp tr <> [] -> newErrors st = ∅).
Proof.
  unfold handleSubmit, validateForm. simpl. intros [] [].
  destruct (size (newErrors st) =? 0)%nat eqn:Hs.
  - apply passes_iff_empty in Hs.
    eapply all_runs_mono; [|apply all_runs_true]. intros; assumption.
  - simpl. intros []. simpl. congruence.
Qed.

(** C6, as the code has it. In register mode the email field passes
    [validateForm] exactly when the email is non-empty and well formed, no
    availability check is flagged as running and the stored verdict is not
    negative (it is affirmative or still unknown); [validateForm] returns
    [true], and the sign-up call is reached, only in such states. *)
Theorem email_gate (W : Type) (h : Handler W) (w : W) (st : State) :
  isLogin st = false ->
  (newErrors st !! "email"%string = None <-> email_gate_open st) /\
  (result_of (exec h (validateForm st) w) = true -> email_gate_open st) /\
  (List.filter is_SignUp (trace_of (exec h (handleSubmit st) w)) <> [] ->
   email_gate_open st).
Proof.
  intros Hl.
  assert (Hempty : newErrors st = ∅ -> email_gate_open st).
  { intros E. apply newErrors_email_none; [exact Hl|]. rewrite E. apply lookup_empty. }
  split; [apply newErrors_email_none; exact Hl|]. split.
  - destruct (@all_runs_exec _ _ _ _ h w (validateForm_runs st)) as (E & _).
    rewrite E. intros H. apply Hempty, passes_iff_empty, H.
  - intros H. apply Hempty.
    exact (@all_runs_exec _ _ _ _ h w (handleSubmit_signUp_runs st) H).
Qed.

Lemma email_gate_witness :
  isLogin filled_register_state = false /\
  email_gate_open filled_register_state.
Proof.
  split; [reflexivity|].
  refine (proj2 (proj2 (@email_gate unit quietWorld tt filled_register_state _)) _).
  - reflexivity.
  - vm_compute. discriminate.
Defined.

(** C6, as stated, fails: after an email was typed on the login form and
    the Register tab was clicked, no availability check has run for it
    (the verdict is still unknown), yet the email field passes validation
    and the sign-up call is made. *)
Lemma email_gate_counterexample :
  isLogin filled_register_state = false /\
  FormData.email (formData filled_register_state) = lit "new@example.com" /\
  emailValidation filled_register_state = unknownValidation /\
  ~ (newErrors filled_register_state !! "email"%string = None ->
     email_gate_affirmative filled_register_state) /\
  ~ (List.filter is_SignUp
       (trace_of (exec quietWorld (handleSubmit filled_register_state) tt)) <> [] ->
     email_gate_affirmative filled_register_state).
Proof.
  assert (Hno : ~ email_gate_affirmative filled_register_state).
  { intros [_ H]. vm_compute in H. discriminate. }
  split; [reflexivity|]. split; [reflexivity|]. split; [reflexivity|].
  split; intros H; apply Hno, H.
  - vm_compute. reflexivity.
  - vm_compute. discriminate.
Qed.

(** ** Login mode *)

Lemma handleSubmit_with_validations (st : State) (ev pv : Validation.t) :
  isLogin st = true ->
  handleSubmit (with_validations ev pv st) = handleSubmit st.
Proof.
  intros Hl. unfold handleSubmit, validateForm.
  rewrite (newErrors_with_validations st ev pv Hl). reflexivity.
Qed.

Lemma check_password_register (st : State) :
  isLogin st = false ->
  truthy (FormData.password (formData st)) = true ->
  validatePassword (FormData.password (formData st)) = false ->
  newErrors st !! "password"%string =
  Some (Some (lit "Password must meet all requirements")).
Proof.
  intros Hl Ht Hv. rewrite newErrors_password. unfold check_password.
  rewrite Hl, Ht, Hv. simpl. apply lookup_set_error_eq.
Qed.

(** C9. In login mode every non-empty password passes the password check
    of [validateForm], whatever its strength, and neither the error object
    nor the submission depends on the availability-check results; in
    register mode a non-empty password that misses one of the five criteria
    is refused. *)
Theorem login_validation (st : State) :
  isLogin st = true ->
  (truthy (FormData.password (formData st)) = true ->
   newErrors st !! "password"%string = None) /\
  (forall ev pv : Validation.t,
     newErrors (with_validations ev pv st) = newErrors st /\
     validateForm (with_validations ev pv st) = validateForm st /\
     handleSubmit (with_validations ev pv st) = handleSubmit st) /\
  (forall st' : State,
     isLogin st' = false ->
     truthy (FormData.password (formData st')) = true ->
     validatePassword (FormData.password (formData st')) = false ->
     newErrors st' !! "password"%string =
     Some (Some (lit "Password must meet all requirements"))).
Proof.
  intros Hl. split; [|split].
  - intros Ht. rewrite newErrors_password. unfold check_password.
    rewrite Hl, Ht. simpl. apply lookup_empty.
  - intros ev pv. split; [apply newErrors_with_validations; exact Hl|].
    split; [|apply handleSubmit_with_validations; exact Hl].
    unfold validateForm. rewrite (newErrors_with_validations st ev pv Hl). reflexivity.
  - apply check_password_register.
Qed.

Lemma login_validation_witness :
  validatePassword (FormData.password (formData weak_login_state)) = false /\
  newErrors weak_login_state !! "password"%string = None.
Proof.
  split; [vm_compute; reflexivity|].
  apply (proj1 (login_validation weak_login_state eq_refl)). reflexivity.
Defined.

(** ** Provider errors at login *)

Lemma str_eqb_eq (a b : jsstring) : str_eqb a b = true <-> a = b.
Proof.
  revert b. induction a as [|x a IH]; intros [|y b]; simpl;
    try (split; [discriminate | discriminate]); [tauto|].
  rewrite andb_true_iff, N.eqb_eq, IH. split.
  - intros [-> ->]. reflexivity.
  - intros E. injection E as -> ->. auto.
Qed.

Lemma loginFailed_not_offer (e : AuthError.t) :
  loginFailedDialog e <> emailNotConfirmedDialog.
Proof. discriminate. Qed.

Lemma loginFailed_not_resendFailed (e e' : AuthError.t) :
  loginFailedDialog e <> resendFailedDialog e'.
Proof.
  unfold loginFailedDialog, resendFailedDialog, errorDialog. intros H.
  injection H as H _. vm_compute in H. discriminate.
Qed.

Lemma loginFailed_not_sent (e : AuthError.t) :
  loginFailedDialog e <> verificationSentDialog.
Proof. discriminate. Qed.

Lemma afterSignIn_runs (st : State) (e : AuthError.t) :
  all_runs (afterSignIn st {| AuthResponse.error := Some e |}) (fun tr _ =>
    signIn_answers tr = [] /\
    (AuthError.message e = lit "Email not confirmed" ->
     hd_error (dialogs tr) = Some emailNotConfirmedDialog /\
     forall e', ~ In (loginFailedDialog e') (dialogs tr)) /\
    (AuthError.message e <> lit "Email not confirmed" ->
     dialogs tr = [loginFailedDialog e])).
Proof.
  unfold afterSignIn. simpl AuthResponse.error. cbv iota.
  destruct (str_eqb (AuthError.message e) (lit "Email not confirmed")) eqn:E.
  - apply str_eqb_eq in E. simpl. intros [] [confirmed].
    destruct confirmed; simpl.
    + intros [[resendError|]]; simpl; intros [] [] [];
        (split; [reflexivity|]); (split; [|congruence]); intros _;
        (split; [reflexivity|]); intros e' [H | [H | []]]; revert H.
      * apply not_eq_sym, loginFailed_not_offer.
      * apply not_eq_sym, loginFailed_not_resendFailed.
      * apply not_eq_sym, loginFailed_not_offer.
      * apply not_eq_sym, loginFailed_not_sent.
    + intros []. split; [reflexivity|]. split; [|congruence]. intros _.
      split; [reflexivity|]. intros e' [H | []]. revert H.
      apply not_eq_sym, loginFailed_not_offer.
  - assert (Hne : AuthError.message e <> lit "Email not confirmed").
    { intros H. apply str_eqb_eq in H. congruence. }
    simpl. intros [] [] []. split; [reflexivity|]. split; [contradiction|].
    intros _. reflexivity.
Qed.

Lemma afterSignIn_no_signIn (st : State) (r : AuthResponse.t) :
  all_runs (afterSignIn st r) (fun tr _ => signIn_answers tr = []).
Proof.
  destruct r as [[e|]].
  - eapply all_runs_mono; [|apply afterSignIn_runs]. simpl. tauto.
  - unfold afterSignIn, resetForm. simpl. intros. reflexivity.
Qed.

Lemma handleSubmit_login_runs (st : State) (e : AuthError.t) :
  isLogin st = true ->
  all_runs (handleSubmit st) (fun tr _ =>
    In {| AuthResponse.error := Some e |} (signIn_answers tr) ->
    (AuthError.message e = lit "Email not confirmed" ->
     hd_error (dialogs tr) = Some emailNotConfirmedDialog /\
     forall e', ~ In (loginFailedDialog e') (dialogs tr)) /\
    (AuthError.message e <> lit "Email not confirmed" ->
     dialogs tr = [loginFailedDialog e])).
Proof.
  intros Hl. unfold handleSubmit, validateForm. simpl. intros [] [].
  destruct (size (newErrors st) =? 0)%nat; simpl.
  - intros [] []. rewrite Hl. simpl. intros [[e0|]].
    + eapply all_runs_mono; [|apply afterSignIn_runs].
      simpl. intros tr _ (Hs & Hoffer & Hother). rewrite Hs. simpl.
      intros [H | []]. injection H as ->. auto.
    + eapply all_runs_mono; [|apply afterSignIn_no_signIn].
      simpl. intros tr _ Hs. rewrite Hs. simpl.
      intros [H | []]. discriminate H.
  - intros []. simpl. intros [].
Qed.

(** C7. When a login submission reaches the identity provider and it
    answers with an error, the first dialog opened is the offer to resend
    the verification email, and the login-failure dialog is not opened, if
    the error message is exactly "Email not confirmed"; for every other
    message the login-failure dialog is the one dialog opened. *)
Theorem login_error_dialog (W : Type) (h : Handler W) (w : W) (st : State)
    (e : AuthError.t) :
  isLogin st = true ->
  let tr := trace_of (exec h (handleSubmit st) w) in
  In {| AuthResponse.error := Some e |} (signIn_answers tr) ->
  (AuthError.message e = lit "Email not confirmed" ->
   hd_error (dialogs tr) = Some emailNotConfirmedDialog /\
   forall e', ~ In (loginFailedDialog e') (dialogs tr)) /\
  (AuthError.message e <> lit "Email not confirmed" ->
   dialogs tr = [loginFailedDialog e] /\
   ~ In emailNotConfirmedDialog (dialogs tr)).
Proof.
  intros Hl tr Hin. unfold tr in *.
  destruct (@all_runs_exec _ _ _ _ h w (handleSubmit_login_runs st e Hl) Hin)
    as [Hoffer Hother].
  split; [exact Hoffer|]. intros Hne. specialize (Hother Hne).
  split; [exact Hother|]. rewrite Hother. intros [H | []].
  revert H. apply loginFailed_not_offer.
Qed.

(** A provider that answers every call with the given error message. *)
Lemma login_error_dialog_witness :
  let refuse m :=
    constHandler {| QueryResponse.data := None; QueryResponse.error := None |}
      {| AuthResponse.error := Some {| AuthError.message := lit m |} |} false in
  hd_error (dialogs (trace_of
    (exec (refuse "Email not confirmed"%string) (handleSubmit weak_login_state) tt)))
  = Some emailNotConfirmedDialog /\
  dialogs (trace_of
    (exec (refuse "Invalid login credentials"%string) (handleSubmit weak_login_state) tt))
  = [loginFailedDialog {| AuthError.message := lit "Invalid login credentials" |}].
Proof.
  intros refuse. split.
  - refine (proj1 (proj1 (@login_error_dialog unit (refuse _) tt weak_login_state
                            {| AuthError.message := lit "Email not confirmed" |}
                            eq_refl _) eq_refl)).
    vm_compute. left. reflexivity.
  - refine (proj1 (proj2 (@login_error_dialog unit (refuse _) tt weak_login_state
                            {| AuthError.message := lit "Invalid login credentials" |}
                            eq_refl _) _)).
    + vm_compute. left. reflexivity.
    + vm_compute. discriminate.
Defined.

(** ** Switching mode *)

Lemma resetForm_runs :
  all_runs resetForm (fun tr _ =>
    forall s, form_cleared (commit tr s) /\ isLogin (commit tr s) = isLogin s).
Proof.
  unfold resetForm. simpl. intros [] [] [] [] [] s.
  unfold form_cleared. simpl. repeat split.
Qed.

(** The footer link switches mode and clears the form. *)
Lemma toggleMode_resets (W : Type) (h : Handler W) (w : W) (st : State) :
  let st' := commit (trace_of (exec h (toggleMode st) w)) st in
  isLogin st' = negb (isLogin st) /\ form_cleared st'.
Proof.
  assert (H : all_runs (toggleMode st) (fun tr _ =>
    isLogin (commit tr st) = negb (isLogin st) /\ form_cleared (commit tr st))).
  { unfold toggleMode, resetForm. simpl. intros [] [] [] [] [] [].
    unfold form_cleared. simpl. repeat split. }
  exact (@all_runs_exec _ _ _ _ h w H).
Qed.

(** Resetting twice leaves the state that resetting once leaves. *)
Lemma resetForm_idempotent (W : Type) (h : Handler W) (w1 w2 : W) (st : State) :
  let once := commit (trace_of (exec h resetForm w1)) st in
  commit (trace_of (exec h resetForm w2)) once = once.
Proof.
  assert (H : forall s, all_runs resetForm (fun tr _ =>
    all_runs resetForm (fun tr' _ => commit tr' (commit tr s) = commit tr s))).
  { intros s. unfold resetForm. simpl. intros [] [] [] [] [] [] [] [] [] [].
    reflexivity. }
  intros once. unfold once.
  pose proof (@all_runs_exec _ _ _ _ h w1 (H st)) as H1. cbv beta in H1.
  exact (@all_runs_exec _ _ _ _ h w2 H1).
Qed.

(** The tab buttons switch mode and leave everything else as it was. *)
Lemma onClick_registerTab_keeps (W : Type) (h : Handler W) (w : W) (st : State) :
  tabs_enabled st = true ->
  let st' := commit (trace_of (exec h (onClick_registerTab st) w)) st in
  isLogin st' = false /\
  formData st' = formData st /\ errors st' = errors st /\
  touchedFields st' = touchedFields st /\
  emailValidation st' = emailValidation st /\
  phoneValidation st' = phoneValidation st.
Proof.
  intros He.
  assert (H : all_runs (onClick_registerTab st) (fun tr _ =>
    isLogin (commit tr st) = false /\
    formData (commit tr st) = formData st /\ errors (commit tr st) = errors st /\
    touchedFields (commit tr st) = touchedFields st /\
    emailValidation (commit tr st) = emailValidation st /\
    phoneValidation (commit tr st) = phoneValidation st)).
  { unfold onClick_registerTab. rewrite He. simpl. intros []. simpl. repeat split. }
  exact (@all_runs_exec _ _ _ _ h w H).
Qed.

(** C8, at a failing input. An email address is typed on the login form and
    the Register tab is clicked: the mode switches, but the form keeps the
    address and the touched mark, so the form state is not reset.  (The
    footer link does reset it: [toggleMode_resets].) *)
Theorem tab_switch_keeps_form :
  isLogin typed_login_state = true /\
  isLogin tab_register_state = false /\
  FormData.email (formData tab_register_state) = lit "new@example.com" /\
  touchedFields tab_register_state !! "email"%string = Some true /\
  ~ form_cleared tab_register_state.
Proof.
  split; [reflexivity|]. split; [reflexivity|]. split; [reflexivity|].
  split; [vm_compute; reflexivity|].
  intros (H & _). vm_compute in H. discriminate.
Qed.

(** * Further properties of the page *)

(** ** Password policy *)

Lemma label_strong_iff (n : nat) :
  (n <= 5)%nat -> (arm_label (select_arm n) = lit "Strong" <-> n = 5%nat).
Proof.
  intros Hn. destruct n as [|[|[|[|[|[|n]]]]]]; try lia;
    split; intros H; try reflexivity; try discriminate H;
    vm_compute in H; discriminate H.
Qed.

Lemma validatePassword_iff_score (password : jsstring) :
  validatePassword password = true <->
  score (calculatePasswordStrength password) = 5%nat.
Proof.
  rewrite score_count. unfold validatePassword, calculatePasswordStrength.
  cbn [strength_checks]. unfold password_checks, count_true.
  cbn [checks.length checks.uppercase checks.lowercase checks.number checks.special].
  rewrite !test_search_class_existsb.
  generalize (8 <=? List.length password)%nat, (existsb is_upper password),
    (existsb is_lower password), (existsb is_digit password),
    (existsb is_special password).
  intros [] [] [] [] []; simpl; split; intros H; try discriminate; reflexivity.
Qed.

(** X1. The password policy accepts exactly the passwords whose strength
    score is 5, and those are exactly the ones labelled Strong. *)
Theorem validatePassword_iff_strong (password : jsstring) :
  (validatePassword password = true <->
   score (calculatePasswordStrength password) = 5%nat) /\
  (score (calculatePasswordStrength password) = 5%nat <->
   label (calculatePasswordStrength password) = lit "Strong").
Proof.
  split; [apply validatePassword_iff_score|].
  symmetry.
  change (label (calculatePasswordStrength password))
    with (arm_label (select_arm (score (calculatePasswordStrength password)))).
  apply label_strong_iff, score_le_5.
Qed.

Lemma b2n_le (a b : bool) : (a = true -> b = true) -> (Nat.b2n a <= Nat.b2n b)%nat.
Proof. destruct a, b; simpl; intros H; lia. Qed.

Lemma score_app (a b : jsstring) :
  (score (calculatePasswordStrength a) <= score (calculatePasswordStrength (a ++ b)))%nat /\
  (score (calculatePasswordStrength b) <= score (calculatePasswordStrength (a ++ b)))%nat.
Proof.
  rewrite !score_count. unfold count_true. rewrite !existsb_app, length_app.
  split.
  - repeat apply Nat.add_le_mono; apply b2n_le;
      try (intros ->; reflexivity).
    rewrite !Nat.leb_le. lia.
  - repeat apply Nat.add_le_mono; apply b2n_le;
      try (intros ->; apply orb_true_r).
    rewrite !Nat.leb_le. lia.
Qed.

(** X2. Typing more characters never lowers the strength score: the score
    of a password is at least the score of each of its parts, so a password
    that extends an accepted one is accepted. *)
Theorem strength_monotone (a b : jsstring) :
  (score (calculatePasswordStrength a) <= score (calculatePasswordStrength (a ++ b)))%nat /\
  (score (calculatePasswordStrength b) <= score (calculatePasswordStrength (a ++ b)))%nat /\
  (validatePassword a = true -> validatePassword (a ++ b) = true) /\
  (validatePassword b = true -> validatePassword (a ++ b) = true).
Proof.
  destruct (score_app a b) as [Ha Hb].
  pose proof (score_le_5 (a ++ b)) as H5.
  split; [exact Ha|]. split; [exact Hb|].
  split; intros H; apply validatePassword_iff_score in H;
    apply validatePassword_iff_score; lia.
Qed.

Lemma strength_monotone_witness :
  validatePassword (lit "Passw0rd!") = true /\
  validatePassword (lit "Passw0rd!" ++ lit "more") = true /\
  validatePassword (lit "x" ++ lit "Passw0rd!") = true.
Proof.
  split; [reflexivity|]. split.
  - apply (proj1 (proj2 (proj2 (strength_monotone (lit "Passw0rd!") (lit "more"))))).
    reflexivity.
  - apply (proj2 (proj2 (proj2 (strength_monotone (lit "x") (lit "Passw0rd!"))))).
    reflexivity.
Defined.

(** ** What the validators never accept *)

Lemma not_space_at_run (l : jsstring) :
  Forall (holds not_space_at) l ->
  Forall (fun c => is_space c = false) l /\ count_occ N.eq_dec l (cu "@") = 0%nat.
Proof.
  induction 1 as [|c l Hc _ [IH1 IH2]]; [split; [constructor | reflexivity]|].
  unfold holds, not_space_at in Hc.
  apply negb_true_iff, orb_false_iff in Hc as [Hs Ha]. apply N.eqb_neq in Ha.
  split; [constructor; assumption|].
  rewrite count_occ_cons_neq by exact Ha. exact IH2.
Qed.

(** X3. An accepted email address contains no whitespace and exactly one
    [@], which is not its first character, and has at least five code
    units. *)
Theorem validateEmail_accepts_only (s : jsstring) :
  validateEmail s = true ->
  Forall (fun c => is_space c = false) s /\
  count_occ N.eq_dec s (cu "@") = 1%nat /\
  hd_error s <> Some (cu "@") /\
  (5 <= List.length s)%nat.
Proof.
  intros H. apply validateEmail_iff in H
    as (l & d & t & -> & Hl & Hd & Ht & Al & Ad & At).
  pose proof (not_space_at_run Al) as [Sl Cl].
  pose proof (not_space_at_run Ad) as [Sd Cd].
  pose proof (not_space_at_run At) as [St Ct].
  split; [|split; [|split]].
  - rewrite !Forall_app. repeat split; try assumption; repeat constructor.
  - rewrite !count_occ_app, Cl, Cd, Ct. reflexivity.
  - destruct l as [|c l]; [congruence|]. simpl. intros E. injection E as ->.
    apply Forall_inv in Al. discriminate Al.
  - rewrite !length_app. simpl.
    destruct l; [congruence|]. destruct d; [congruence|]. destruct t; [congruence|].
    simpl. lia.
Qed.

Lemma validateEmail_accepts_only_witness :
  count_occ N.eq_dec (lit "taken@example.com") (cu "@") = 1%nat /\
  (5 <= List.length (lit "taken@example.com"))%nat.
Proof.
  destruct (validateEmail_accepts_only (lit "taken@example.com") eq_refl)
    as (_ & H1 & _ & H2).
  split; assumption.
Defined.

Lemma replace_spaces_idem (s : jsstring) :
  replace_spaces (replace_spaces s) = replace_spaces s.
Proof.
  apply replace_spaces_id. apply List.Forall_forall. intros c Hc.
  apply replace_spaces_In in Hc. tauto.
Qed.

Lemma replace_spaces_app (a b : jsstring) :
  replace_spaces (a ++ b) = replace_spaces a ++ replace_spaces b.
Proof. unfold replace_spaces. apply List.filter_app. Qed.

Lemma replace_spaces_all (w : jsstring) :
  Forall (holds is_space) w -> replace_spaces w = [].
Proof.
  unfold replace_spaces. induction 1 as [|c l Hc _ IH]; simpl; [reflexivity|].
  rewrite Hc. simpl. exact IH.
Qed.

(** X4. Whitespace never matters to the phone validator: a number is
    accepted with whitespace inserted anywhere exactly when it is accepted
    without it, and two inputs that differ only in whitespace get the same
    answer. *)
Theorem validatePhone_whitespace (a w b : jsstring) :
  Forall (holds is_space) w ->
  validatePhone (a ++ w ++ b) = validatePhone (a ++ b) /\
  validatePhone (replace_spaces (a ++ w ++ b)) = validatePhone (a ++ b).
Proof.
  intros Hw. unfold validatePhone.
  rewrite replace_spaces_idem, !replace_spaces_app, (replace_spaces_all Hw).
  split; reflexivity.
Qed.

Lemma validatePhone_whitespace_witness :
  validatePhone (lit "+62" ++ lit "  " ++ lit "8123456789") =
  validatePhone (lit "+62" ++ lit "8123456789").
Proof.
  apply (validatePhone_whitespace (lit "+62") (lit "8123456789") (w := lit "  ")).
  repeat constructor.
Defined.

(** ** Phone availability *)

Lemma checkPhoneAvailability_runs (phone : jsstring) :
  all_runs (checkPhoneAvailability phone) (fun tr r =>
    (truthy phone = false ->
     r = phoneNotGiven /\ queries tr = [] /\ consoleErrors tr = []) /\
    (truthy phone = true -> validatePhone phone = false ->
     r = invalidPhoneFormat /\ queries tr = [] /\ consoleErrors tr = []) /\
    (truthy phone = true -> validatePhone phone = true ->
     exists resp,
       queries tr = [("phone"%string, replace_spaces phone, resp)] /\
       (forall err, QueryResponse.error resp = Some err ->
        r = phoneCheckError /\
        consoleErrors tr = [(lit "Error checking phone:", err)]) /\
       (QueryResponse.error resp = None ->
        consoleErrors tr = [] /\
        ((exists row rows, QueryResponse.data resp = Some (row :: rows)) ->
         r = phoneTaken) /\
        (QueryResponse.data resp = None \/ QueryResponse.data resp = Some [] ->
         r = phoneAvailable)))).
Proof.
  unfold checkPhoneAvailability. simpl. intros [].
  destruct (truthy phone) eqn:Et; simpl.
  2:{ repeat split; try discriminate; reflexivity. }
  destruct (validatePhone phone) eqn:Ev; simpl.
  2:{ repeat split; try discriminate; reflexivity. }
  intros [data error]. simpl.
  destruct error as [err|]; simpl.
  - intros []. split; [discriminate|]. split; [discriminate|]. intros _ _.
    eexists. split; [reflexivity|]. simpl. split.
    + intros err' E. injection E as <-. split; reflexivity.
    + discriminate.
  - destruct data as [[|row rows]|]; simpl;
      (split; [discriminate|]); (split; [discriminate|]); intros _ _;
      (eexists; split; [reflexivity|]); simpl;
      (split; [discriminate|]); intros _; (split; [reflexivity|]).
    + split; [|reflexivity]. intros (row & rows & E). discriminate.
    + split; [reflexivity|]. intros [E | E]; discriminate.
    + split; [|reflexivity]. intros (row & rows & E). discriminate.
Qed.

(** X5. Whatever the data service answers, [checkPhoneAvailability] returns
    a result.  An empty phone is valid with an empty message, and a
    malformed one is invalid, both without any query.  Otherwise exactly
    one query is made, on column [phone] with the whitespace removed; an
    answer with an error is logged and gives the generic error result, an
    answer with a row gives "already registered", an answer without rows
    gives "available". *)
Theorem checkPhoneAvailability_spec (W : Type) (h : Handler W) (w : W)
    (phone : jsstring) :
  let run := exec h (checkPhoneAvailability phone) w in
  (truthy phone = false ->
   result_of run = phoneNotGiven /\
   queries (trace_of run) = [] /\ consoleErrors (trace_of run) = []) /\
  (truthy phone = true -> validatePhone phone = false ->
   result_of run = invalidPhoneFormat /\
   queries (trace_of run) = [] /\ consoleErrors (trace_of run) = []) /\
  (truthy phone = true -> validatePhone phone = true ->
   exists resp,
     queries (trace_of run) = [("phone"%string, replace_spaces phone, resp)] /\
     (forall err, QueryResponse.error resp = Some err ->
      result_of run = phoneCheckError /\
      consoleErrors (trace_of run) = [(lit "Error checking phone:", err)]) /\
     (QueryResponse.error resp = None ->
      consoleErrors (trace_of run) = [] /\
      ((exists row rows, QueryResponse.data resp = Some (row :: rows)) ->
       result_of run = phoneTaken) /\
      (QueryResponse.data resp = None \/ QueryResponse.data resp = Some [] ->
       result_of run = phoneAvailable))).
Proof.
  intros run. unfold run.
  exact (@all_runs_exec _ _ _ _ h w (checkPhoneAvailability_runs phone)).
Qed.

Lemma checkPhoneAvailability_spec_witness :
  result_of (exec quietWorld (checkPhoneAvailability []) tt) = phoneNotGiven /\
  result_of (exec quietWorld (checkPhoneAvailability (lit "+62 812 3456 789")) tt)
  = phoneAvailable.
Proof.
  split.
  - apply (proj1 (@checkPhoneAvailability_spec unit quietWorld tt [])). reflexivity.
  - destruct (proj2 (proj2 (@checkPhoneAvailability_spec unit quietWorld tt
                              (lit "+62 812 3456 789"))) eq_refl eq_refl)
      as (resp & Hq & _ & Hok).
    vm_compute in Hq. injection Hq as <-.
    apply (Hok eq_refl). right. reflexivity.
Defined.

(** X6. An affirmative verdict is never given to a malformed value: when
    the email checker answers [isValid:true] the address passes the format
    check, and when the phone checker does the phone is empty or passes the
    format check; and every negative verdict of either checker carries a
    non-empty message. *)
Theorem availability_sound (toLowerCase : jsstring -> jsstring)
    (W : Type) (h : Handler W) (w : W) (value : jsstring) :
  let e := result_of (exec h (checkEmailAvailability toLowerCase value) w) in
  let p := result_of (exec h (checkPhoneAvailability value) w) in
  (Availability.isValid e = true -> validateEmail value = true) /\
  (Availability.isValid p = true -> value = [] \/ validatePhone value = true) /\
  (Availability.isValid e = false -> truthy (Availability.message e) = true) /\
  (Availability.isValid p = false -> truthy (Availability.message p) = true).
Proof.
  intros e p.
  assert (He : all_runs (checkEmailAvailability toLowerCase value) (fun _ r =>
    (Availability.isValid r = true -> validateEmail value = true) /\
    (Availability.isValid r = false -> truthy (Availability.message r) = true))).
  { eapply all_runs_mono; [|apply checkEmailAvailability_runs].
    intros tr r [Hbad Hgood]. destruct (validateEmail value).
    - split; [reflexivity|].
      destruct (Hgood eq_refl) as (resp & _ & Herr & Htaken & Hfree).
      destruct (QueryResponse.error resp) as [err|] eqn:Ee.
      + rewrite Herr by discriminate. reflexivity.
      + destruct (QueryResponse.data resp) as [[|row rows]|] eqn:Ed.
        * rewrite Hfree by auto. discriminate.
        * rewrite Htaken by eauto. reflexivity.
        * rewrite Hfree by auto. discriminate.
    - destruct (Hbad eq_refl) as [-> _]. split; [discriminate | reflexivity]. }
  assert (Hp : all_runs (checkPhoneAvailability value) (fun _ r =>
    (Availability.isValid r = true -> value = [] \/ validatePhone value = true) /\
    (Availability.isValid r = false -> truthy (Availability.message r) = true))).
  { eapply all_runs_mono; [|apply checkPhoneAvailability_runs].
    intros tr r (Hnone & Hbad & Hgood). destruct (truthy value) eqn:Et.
    - destruct (validatePhone value).
      + split; [auto|].
        destruct (Hgood eq_refl eq_refl) as (resp & _ & Herr & Hok).
        destruct (QueryResponse.error resp) as [err|] eqn:Ee.
        * destruct (Herr err eq_refl) as [-> _]. reflexivity.
        * destruct (Hok eq_refl) as (_ & Htaken & Hfree).
          destruct (QueryResponse.data resp) as [[|row rows]|] eqn:Ed.
          -- rewrite Hfree by auto. discriminate.
          -- rewrite Htaken by eauto. reflexivity.
          -- rewrite Hfree by auto. discriminate.
      + destruct (Hbad eq_refl eq_refl) as [-> _]. split; [discriminate | reflexivity].
    - destruct (Hnone eq_refl) as [-> _]. split; [|discriminate].
      intros _. left. destruct value; [reflexivity | discriminate]. }
  destruct (@all_runs_exec _ _ _ _ h w He) as [E1 E2].
  destruct (@all_runs_exec _ _ _ _ h w Hp) as [P1 P2].
  auto.
Qed.

Lemma availability_sound_witness :
  validateEmail (lit "new@example.com") = true.
Proof.
  apply (proj1 (@availability_sound asciiLower unit quietWorld tt (lit "new@example.com"))).
  reflexivity.
Defined.

(** ** Editing a field *)

(** One step of a run: answer the next call, or split on the next test. *)
Ltac run_step :=
  match goal with
  | |- forall _ : unit, _ => intros []
  | |- forall _ : QueryResponse.t, _ => intros [[[|? ?]|] [?|]]
  | |- forall _ : AuthResponse.t, _ => intros [[?|]]
  | |- forall _ : Swal.Result, _ => intros [[|]]
  | |- forall _ : jsstring, _ => intro
  | |- all_runs ?p _ =>
      match p with
      | context [if negb ?b then _ else _] => destruct b eqn:?
      | context [if ?b then _ else _] => destruct b eqn:?
      end
  end.

(** Map operations and the validators are left folded while a run is
    unfolded. *)
Ltac run_simpl :=
  cbn -[insert lookup validateEmail validatePhone validatePassword replace_spaces
        newErrors].

Ltac run_all := repeat (run_simpl; run_step); run_simpl.

(** Closes a goal by the hypothesis that states it. *)
Ltac by_hyp :=
  match goal with
  | H : ?P |- ?P => exact H
  end.

Ltac run_handleInputChange field value :=
  unfold handleInputChange, when, checkEmailAvailability, checkPhoneAvailability;
  match goal with
  | |- context [touched ?t field] => destruct (touched t field) eqn:?
  end;
  match goal with
  | |- context [error_shown ?e field] => destruct (error_shown e field) eqn:?
  end;
  destruct field, value as [|? ?];
  match goal with |- context [isLogin ?st] => destruct (isLogin st) eqn:? end;
  run_all.

Section HandleInputChange.

Variable toLowerCase : jsstring -> jsstring.
Variable st : State.
Variable field : Field.
Variable value : jsstring.

Lemma handleInputChange_form_runs :
  all_runs (handleInputChange toLowerCase st field value) (fun tr _ =>
    formData (commit tr st) = set_field field value (formData st) /\
    isLogin (commit tr st) = isLogin st /\
    isLoading (commit tr st) = isLoading st /\
    isSocialLoading (commit tr st) = isSocialLoading st).
Proof.
  run_handleInputChange field value;
    (split; [|split; [|split]]); first [reflexivity | by_hyp].
Qed.

Lemma handleInputChange_marks_runs :
  all_runs (handleInputChange toLowerCase st field value) (fun tr _ =>
    touchedFields (commit tr st) =
      (if touched (touchedFields st) field then touchedFields st
       else <[field_name field := true]> (touchedFields st)) /\
    errors (commit tr st) =
      (if error_shown (errors st) field then <[field_name field := None]> (errors st)
       else errors st)).
Proof.
  run_handleInputChange field value; split; reflexivity.
Qed.

Lemma handleInputChange_queries_runs :
  all_runs (handleInputChange toLowerCase st field value) (fun tr _ =>
    (List.length (queries tr) <= 1)%nat /\
    (queries tr <> [] ->
     isLogin st = false /\ value <> [] /\ (field = F_email \/ field = F_phone))).
Proof.
  run_handleInputChange field value; (split; [cbn; lia|]);
    intros Hq; try (exfalso; apply Hq; reflexivity);
    (split; [reflexivity|]); (split; [discriminate|]); auto.
Qed.

Lemma handleInputChange_email_runs :
  field = F_email ->
  all_runs (handleInputChange toLowerCase st field value) (fun tr _ =>
    phoneValidation (commit tr st) = phoneValidation st /\
    (isLogin st = true \/ value = [] ->
     emailValidation (commit tr st) = unknownValidation) /\
    (isLogin st = false -> value <> [] ->
     Validation.isChecking (emailValidation (commit tr st)) = false /\
     Validation.isValid (emailValidation (commit tr st)) <> None /\
     (Validation.isValid (emailValidation (commit tr st)) = Some true ->
      validateEmail value = true) /\
     (Validation.isValid (emailValidation (commit tr st)) = Some false ->
      truthy (Validation.message (emailValidation (commit tr st))) = true))).
Proof.
  intros ->.
  unfold handleInputChange, when, checkEmailAvailability, checkPhoneAvailability.
  destruct value as [|c v], (isLogin st) eqn:Hl; run_all;
    (split; [reflexivity|]);
    (split; [try reflexivity; intros [? | ?]; discriminate|]);
    intros Hreg Hne; try discriminate Hreg; try (exfalso; apply Hne; reflexivity);
    (split; [reflexivity|]); (split; [discriminate|]);
    (split; [intros E; first [discriminate E | reflexivity | by_hyp]
            |intros E; first [discriminate E | reflexivity]]).
Qed.

Lemma handleInputChange_phone_runs :
  field = F_phone ->
  all_runs (handleInputChange toLowerCase st field value) (fun tr _ =>
    emailValidation (commit tr st) = emailValidation st /\
    (isLogin st = true \/ value = [] ->
     phoneValidation (commit tr st) = unknownValidation) /\
    (isLogin st = false -> value <> [] ->
     Validation.isChecking (phoneValidation (commit tr st)) = false /\
     Validation.isValid (phoneValidation (commit tr st)) <> None /\
     (Validation.isValid (phoneValidation (commit tr st)) = Some true ->
      validatePhone value = true) /\
     (Validation.isValid (phoneValidation (commit tr st)) = Some false ->
      truthy (Validation.message (phoneValidation (commit tr st))) = true))).
Proof.
  intros ->.
  unfold handleInputChange, when, checkEmailAvailability, checkPhoneAvailability.
  destruct value as [|c v], (isLogin st) eqn:Hl; run_all;
    (split; [reflexivity|]);
    (split; [try reflexivity; intros [? | ?]; discriminate|]);
    intros Hreg Hne; try discriminate Hreg; try (exfalso; apply Hne; reflexivity);
    (split; [reflexivity|]); (split; [discriminate|]);
    (split; [intros E; first [discriminate E | reflexivity | by_hyp]
            |intros E; first [discriminate E | reflexivity]]).
Qed.

Lemma handleInputChange_other_runs :
  field <> F_email -> field <> F_phone ->
  all_runs (handleInputChange toLowerCase st field value) (fun tr _ =>
    emailValidation (commit tr st) = emailValidation st /\
    phoneValidation (commit tr st) = phoneValidation st).
Proof.
  intros He Hp. run_handleInputChange field value;
    try (exfalso; apply He; reflexivity); try (exfalso; apply Hp; reflexivity);
    split; reflexivity.
Qed.

End HandleInputChange.

Lemma get_set_field_eq (f : Field) (v : jsstring) (fd : FormData.t) :
  get_field f (set_field f v fd) = v.
Proof. destruct f; reflexivity. Qed.

Lemma get_set_field_ne (f g : Field) (v : jsstring) (fd : FormData.t) :
  f <> g -> get_field f (set_field g v fd) = get_field f fd.
Proof. destruct f, g; intros H; try reflexivity; exfalso; apply H; reflexivity. Qed.

Lemma touched_insert (t : gmap string bool) (f : Field) :
  touched (<[field_name f := true]> t) f = true.
Proof. unfold touched. rewrite lookup_insert_eq. reflexivity. Qed.

Lemma error_shown_insert_None (e : FormErrors) (f : Field) :
  error_shown (<[field_name f := None]> e) f = false.
Proof. unfold error_shown. rewrite lookup_insert_eq. reflexivity. Qed.

(** X7. Editing a field stores the typed value in that field of the form
    data and leaves the other four fields, the mode and the loading flags
    as they were, whatever the availability check answers. *)
Theorem handleInputChange_sets_field (toLowerCase : jsstring -> jsstring)
    (W : Type) (h : Handler W) (w : W) (st : State) (field : Field) (value : jsstring) :
  let final :=
    commit (trace_of (exec h (handleInputChange toLowerCase st field value) w)) st in
  get_field field (formData final) = value /\
  (forall f, f <> field -> get_field f (formData final) = get_field f (formData st)) /\
  isLogin final = isLogin st /\
  isLoading final = isLoading st /\
  isSocialLoading final = isSocialLoading st.
Proof.
  intros final.
  destruct (@all_runs_exec _ _ _ _ h w
              (handleInputChange_form_runs toLowerCase st field value))
    as (Hf & Hl & Hld & Hs).
  fold final in Hf, Hl, Hld, Hs. rewrite Hf.
  split; [apply get_set_field_eq|].
  split; [intros f Hne; apply get_set_field_ne; exact Hne|].
  auto.
Qed.

Lemma handleInputChange_sets_field_witness :
  let final := after tab_register_state
                 (handleInputChange asciiLower tab_register_state F_fullName (lit "Al")) in
  get_field F_fullName (formData final) = lit "Al" /\
  get_field F_email (formData final) = lit "new@example.com".
Proof.
  intros final.
  destruct (@handleInputChange_sets_field asciiLower unit quietWorld tt
              tab_register_state F_fullName (lit "Al")) as (H1 & H2 & _).
  split; [exact H1|].
  unfold final, after. rewrite (H2 F_email) by discriminate. reflexivity.
Defined.

(** X8. Editing a field marks it as touched and leaves no visible error on
    it; the touched marks and the error entries of the other fields are
    not changed. *)
Theorem handleInputChange_marks (toLowerCase : jsstring -> jsstring)
    (W : Type) (h : Handler W) (w : W) (st : State) (field : Field) (value : jsstring) :
  let final :=
    commit (trace_of (exec h (handleInputChange toLowerCase st field value) w)) st in
  touched (touchedFields final) field = true /\
  error_shown (errors final) field = false /\
  (forall k, k <> field_name field ->
     touchedFields final !! k = touchedFields st !! k /\
     errors final !! k = errors st !! k).
Proof.
  intros final.
  destruct (@all_runs_exec _ _ _ _ h w
              (handleInputChange_marks_runs toLowerCase st field value))
    as (Ht & He).
  fold final in Ht, He. rewrite Ht, He.
  destruct (touched (touchedFields st) field) eqn:T,
    (error_shown (errors st) field) eqn:E;
    (split; [first [exact T | apply touched_insert]|]);
    (split; [first [exact E | apply error_shown_insert_None]|]);
    intros k Hk; rewrite ?lookup_insert_ne by congruence; split; reflexivity.
Qed.

Lemma handleInputChange_marks_witness :
  let final := after tab_register_state
                 (handleInputChange asciiLower tab_register_state F_fullName (lit "Al")) in
  touched (touchedFields final) F_fullName = true /\
  touchedFields final !! "email"%string = Some true.
Proof.
  intros final.
  destruct (@handleInputChange_marks asciiLower unit quietWorld tt
              tab_register_state F_fullName (lit "Al")) as (H1 & _ & H3).
  split; [exact H1|].
  unfold final, after. rewrite (proj1 (H3 "email"%string ltac:(discriminate))).
  vm_compute. reflexivity.
Defined.

(** X9. Editing a field queries the data service at most once, and only in
    register mode, for a non-empty value of the email or the phone field;
    in login mode, for an emptied field and for the other fields no query
    is made. *)
Theorem handleInputChange_queries (toLowerCase : jsstring -> jsstring)
    (W : Type) (h : Handler W) (w : W) (st : State) (field : Field) (value : jsstring) :
  let tr := trace_of (exec h (handleInputChange toLowerCase st field value) w) in
  (List.length (queries tr) <= 1)%nat /\
  (queries tr <> [] ->
   isLogin st = false /\ value <> [] /\ (field = F_email \/ field = F_phone)) /\
  (isLogin st = true \/ value = [] \/ (field <> F_email /\ field <> F_phone) ->
   queries tr = []).
Proof.
  intros tr.
  destruct (@all_runs_exec _ _ _ _ h w
              (handleInputChange_queries_runs toLowerCase st field value))
    as (Hlen & Hq).
  fold tr in Hlen, Hq.
  split; [exact Hlen|]. split; [exact Hq|].
  intros Hno. destruct (queries tr) as [|q qs] eqn:E; [reflexivity|].
  destruct Hq as (Hl & Hv & Hf); [discriminate|].
  destruct Hno as [H | [H | [H1 H2]]]; [congruence | contradiction |].
  destruct Hf; contradiction.
Qed.

Lemma handleInputChange_queries_witness :
  queries (trace_of (exec quietWorld
    (handleInputChange asciiLower initialState F_email (lit "new@example.com")) tt)) = [].
Proof.
  apply (proj2 (proj2 (@handleInputChange_queries asciiLower unit quietWorld tt
                         initialState F_email (lit "new@example.com")))).
  left. reflexivity.
Defined.

(** X10. In register mode, when a non-empty email or phone has been typed
    and its check has resolved, the stored result of that field is no
    longer checking and carries a verdict; the verdict is affirmative only
    for a well-formed value, and a negative verdict has a message. *)
Theorem handleInputChange_verdict (toLowerCase : jsstring -> jsstring)
    (W : Type) (h : Handler W) (w : W) (st : State) (value : jsstring) :
  isLogin st = false -> value <> [] ->
  let e := emailValidation
    (commit (trace_of (exec h (handleInputChange toLowerCase st F_email value) w)) st) in
  let p := phoneValidation
    (commit (trace_of (exec h (handleInputChange toLowerCase st F_phone value) w)) st) in
  (Validation.isChecking e = false /\
   Validation.isValid e <> None /\
   (Validation.isValid e = Some true -> validateEmail value = true) /\
   (Validation.isValid e = Some false -> truthy (Validation.message e) = true)) /\
  (Validation.isChecking p = false /\
   Validation.isValid p <> None /\
   (Validation.isValid p = Some true -> validatePhone value = true) /\
   (Validation.isValid p = Some false -> truthy (Validation.message p) = true)).
Proof.
  intros Hl Hv e p. split.
  - exact (proj2 (proj2 (@all_runs_exec _ _ _ _ h w
             (handleInputChange_email_runs toLowerCase st value eq_refl))) Hl Hv).
  - exact (proj2 (proj2 (@all_runs_exec _ _ _ _ h w
             (handleInputChange_phone_runs toLowerCase st value eq_refl))) Hl Hv).
Qed.

Lemma handleInputChange_verdict_witness :
  Validation.isChecking (emailValidation
    (after tab_register_state
       (handleInputChange asciiLower tab_register_state F_email (lit "other@example.com"))))
  = false.
Proof.
  apply (@handleInputChange_verdict asciiLower unit quietWorld tt tab_register_state
           (lit "other@example.com")); [reflexivity | discriminate].
Defined.

(** X11. Editing the email in login mode, or emptying it, puts its
    availability result back to unknown, and likewise for the phone;
    editing the email never changes the phone's result nor the phone the
    email's, and editing another field changes neither. *)
Theorem handleInputChange_resets (toLowerCase : jsstring -> jsstring)
    (W : Type) (h : Handler W) (w : W) (st : State) (field : Field) (value : jsstring) :
  let final :=
    commit (trace_of (exec h (handleInputChange toLowerCase st field value) w)) st in
  (field = F_email ->
   phoneValidation final = phoneValidation st /\
   (isLogin st = true \/ value = [] -> emailValidation final = unknownValidation)) /\
  (field = F_phone ->
   emailValidation final = emailValidation st /\
   (isLogin st = true \/ value = [] -> phoneValidation final = unknownValidation)) /\
  (field <> F_email -> field <> F_phone ->
   emailValidation final = emailValidation st /\
   phoneValidation final = phoneValidation st).
Proof.
  intros final. split; [|split].
  - intros Hf.
    destruct (@all_runs_exec _ _ _ _ h w
                (handleInputChange_email_runs toLowerCase st value Hf)) as (H1 & H2 & _).
    split; assumption.
  - intros Hf.
    destruct (@all_runs_exec _ _ _ _ h w
                (handleInputChange_phone_runs toLowerCase st value Hf)) as (H1 & H2 & _).
    split; assumption.
  - intros He Hp.
    exact (@all_runs_exec _ _ _ _ h w
             (handleInputChange_other_runs toLowerCase st value He Hp)).
Qed.

Lemma handleInputChange_resets_witness :
  emailValidation
    (after pending_register_state
       (handleInputChange asciiLower pending_register_state F_email []))
  = unknownValidation.
Proof.
  apply (proj1 (@handleInputChange_resets asciiLower unit quietWorld tt
                  pending_register_state F_email [])); [reflexivity|].
  right. reflexivity.
Defined.

(** ** The whole of [validateForm] *)

Section ValidateForm.

Variable st : State.

Lemma set_error_nonempty (k : string) (m : jsstring) (e : FormErrors) :
  set_error k m e <> ∅.
Proof. apply insert_non_empty. Qed.

Ltac stage_empty :=
  repeat match goal with
         | |- context [if negb ?b then _ else _] => destruct b eqn:?; cbn [negb]
         | |- context [if ?b then _ else _] => destruct b eqn:?
         end;
  (split;
   [ let E := fresh "E" in
     intros E; first [exfalso; revert E; apply set_error_nonempty | intuition congruence]
   | intuition congruence ]).

Lemma check_email_empty (e : FormErrors) :
  check_email st e = ∅ <->
  e = ∅ /\ truthy (FormData.email (formData st)) = true /\
  validateEmail (FormData.email (formData st)) = true /\
  negb (isLogin st) && isValid_false (emailValidation st) = false.
Proof. unfold check_email. stage_empty. Qed.

Lemma check_password_empty (e : FormErrors) :
  check_password st e = ∅ <->
  e = ∅ /\ truthy (FormData.password (formData st)) = true /\
  negb (isLogin st) && negb (validatePassword (FormData.password (formData st))) = false.
Proof. unfold check_password. stage_empty. Qed.

Lemma check_fullName_empty (e : FormErrors) :
  check_fullName st e = ∅ <->
  e = ∅ /\ truthy (FormData.fullName (formData st)) = true /\
  (List.length (FormData.fullName (formData st)) <? 2)%nat = false.
Proof. unfold check_fullName. stage_empty. Qed.

Lemma check_confirmPassword_empty (e : FormErrors) :
  check_confirmPassword st e = ∅ <->
  e = ∅ /\ truthy (FormData.confirmPassword (formData st)) = true /\
  str_eqb (FormData.password (formData st)) (FormData.confirmPassword (formData st)) = true.
Proof. unfold check_confirmPassword. stage_empty. Qed.

Lemma check_phone_empty (e : FormErrors) :
  check_phone st e = ∅ <->
  e = ∅ /\
  (truthy (FormData.phone (formData st)) = true ->
   validatePhone (FormData.phone (formData st)) = true /\
   isValid_false (phoneValidation st) = false).
Proof. unfold check_phone. stage_empty. Qed.

Lemma check_email_pending_empty (e : FormErrors) :
  check_email_pending st e = ∅ <->
  e = ∅ /\ Validation.isChecking (emailValidation st) = false.
Proof. unfold check_email_pending. stage_empty. Qed.

Lemma check_phone_pending_empty (e : FormErrors) :
  check_phone_pending st e = ∅ <->
  e = ∅ /\ Validation.isChecking (phoneValidation st) = false.
Proof. unfold check_phone_pending. stage_empty. Qed.

Lemma isValid_false_not (v : Validation.t) :
  isValid_false v = false <-> Validation.isValid v <> Some false.
Proof.
  unfold isValid_false. destruct (Validation.isValid v) as [[|]|];
    split; congruence.
Qed.

Lemma fullName_long (s : jsstring) :
  truthy s = true /\ (List.length s <? 2)%nat = false <-> (2 <= List.length s)%nat.
Proof.
  rewrite Nat.ltb_ge. destruct s as [|c s]; simpl; split.
  - intros [H _]. discriminate.
  - lia.
  - intros [_ H]. exact H.
  - auto.
Qed.

Lemma newErrors_empty_register :
  isLogin st = false -> (newErrors st = ∅ <-> registration_acceptable st).
Proof.
  intros Hl. unfold newErrors, registration_acceptable, email_gate_open.
  rewrite Hl. cbn [negb].
  rewrite check_phone_pending_empty, check_email_pending_empty, check_phone_empty,
    check_confirmPassword_empty, check_fullName_empty, check_password_empty,
    check_email_empty.
  rewrite Hl. cbn [negb andb].
  rewrite negb_false_iff, !isValid_false_not, <- fullName_long, str_eqb_eq.
  intuition congruence.
Qed.

Lemma newErrors_empty_login :
  isLogin st = true -> (newErrors st = ∅ <-> login_acceptable st).
Proof.
  intros Hl. unfold newErrors, login_acceptable. rewrite Hl. cbn [negb].
  rewrite check_password_empty, check_email_empty. rewrite Hl. cbn [negb andb].
  intuition congruence.
Qed.

End ValidateForm.

Section ErrorEntries.

Variable st : State.

Lemma entry_from_set_error (K : string) (m : jsstring) (e : FormErrors) :
  entry_from K e (set_error K m e).
Proof.
  intros k v. unfold set_error. rewrite lookup_insert. case_decide.
  - intros E. injection E as <-. left. split; [auto | eauto].
  - auto.
Qed.

Lemma entry_from_refl (K : string) (e : FormErrors) : entry_from K e e.
Proof. intros k v H. auto. Qed.

Ltac stage_entries :=
  repeat match goal with
         | |- context [if ?b then _ else _] => destruct b
         end;
  first [apply entry_from_set_error | apply entry_from_refl].

Lemma check_email_entries (e : FormErrors) : entry_from "email" e (check_email st e).
Proof. unfold check_email. stage_entries. Qed.

Lemma check_password_entries (e : FormErrors) :
  entry_from "password" e (check_password st e).
Proof. unfold check_password. stage_entries. Qed.

Lemma check_fullName_entries (e : FormErrors) :
  entry_from "fullName" e (check_fullName st e).
Proof. unfold check_fullName. stage_entries. Qed.

Lemma check_confirmPassword_entries (e : FormErrors) :
  entry_from "confirmPassword" e (check_confirmPassword st e).
Proof. unfold check_confirmPassword. stage_entries. Qed.

Lemma check_phone_entries (e : FormErrors) : entry_from "phone" e (check_phone st e).
Proof. unfold check_phone. stage_entries. Qed.

Lemma check_email_pending_entries (e : FormErrors) :
  entry_from "email" e (check_email_pending st e).
Proof. unfold check_email_pending. stage_entries. Qed.

Lemma check_phone_pending_entries (e : FormErrors) :
  entry_from "phone" e (check_phone_pending st e).
Proof. unfold check_phone_pending. stage_entries. Qed.

Lemma newErrors_entries (k : string) (v : option jsstring) :
  newErrors st !! k = Some v ->
  (exists m, v = Some m) /\
  In k field_names /\
  (isLogin st = true -> k = "email"%string \/ k = "password"%string).
Proof.
  assert (Hbase : forall k v, check_password st (check_email st ∅) !! k = Some v ->
            (exists m, v = Some m) /\
            (k = "email"%string \/ k = "password"%string)).
  { intros k' v' H.
    apply check_password_entries in H as [[-> Hm] | H]; [auto|].
    apply check_email_entries in H as [[-> Hm] | H]; [auto|].
    rewrite lookup_empty in H. discriminate. }
  unfold newErrors. destruct (isLogin st); cbn [negb].
  - intros H. apply Hbase in H as [Hm Hk]. split; [exact Hm|]. split; [|auto].
    destruct Hk as [-> | ->]; simpl; auto.
  - intros H. split; [|split; [|discriminate]].
    + apply check_phone_pending_entries in H as [[_ Hm] | H]; [exact Hm|].
      apply check_email_pending_entries in H as [[_ Hm] | H]; [exact Hm|].
      apply check_phone_entries in H as [[_ Hm] | H]; [exact Hm|].
      apply check_confirmPassword_entries in H as [[_ Hm] | H]; [exact Hm|].
      apply check_fullName_entries in H as [[_ Hm] | H]; [exact Hm|].
      apply Hbase in H. tauto.
    + apply check_phone_pending_entries in H as [[-> _] | H]; [simpl; auto 6|].
      apply check_email_pending_entries in H as [[-> _] | H]; [simpl; auto 6|].
      apply check_phone_entries in H as [[-> _] | H]; [simpl; auto 6|].
      apply check_confirmPassword_entries in H as [[-> _] | H]; [simpl; auto 6|].
      apply check_fullName_entries in H as [[-> _] | H]; [simpl; auto 6|].
      apply Hbase in H as [_ [-> | ->]]; simpl; auto.
Qed.

(** The entries of the register-only blocks. *)
Lemma newErrors_fullName :
  isLogin st = false ->
  newErrors st !! "fullName"%string = check_fullName st ∅ !! "fullName"%string.
Proof.
  intros Hl. unfold newErrors. rewrite Hl. cbn [negb].
  rewrite check_phone_pending_other, check_email_pending_other, check_phone_other,
    check_confirmPassword_other by discriminate.
  unfold check_fullName.
  repeat match goal with
         | |- context [if ?b then _ else _] => destruct b
         end; rewrite ?lookup_set_error_eq; try reflexivity.
  rewrite check_password_other, check_email_other by discriminate. reflexivity.
Qed.

Lemma newErrors_confirmPassword :
  isLogin st = false ->
  newErrors st !! "confirmPassword"%string =
  check_confirmPassword st ∅ !! "confirmPassword"%string.
Proof.
  intros Hl. unfold newErrors. rewrite Hl. cbn [negb].
  rewrite check_phone_pending_other, check_email_pending_other, check_phone_other
    by discriminate.
  unfold check_confirmPassword.
  repeat match goal with
         | |- context [if ?b then _ else _] => destruct b
         end; rewrite ?lookup_set_error_eq; try reflexivity.
  rewrite check_fullName_other, check_password_other, check_email_other by discriminate.
  reflexivity.
Qed.

Lemma newErrors_phone :
  isLogin st = false ->
  newErrors st !! "phone"%string =
  if Validation.isChecking (phoneValidation st)
  then Some (Some (lit "Please wait while we check phone availability"))
  else check_phone st ∅ !! "phone"%string.
Proof.
  intros Hl. unfold newErrors. rewrite Hl. cbn [negb].
  unfold check_phone_pending.
  destruct (Validation.isChecking (phoneValidation st)).
  - apply lookup_set_error_eq.
  - rewrite check_email_pending_other by discriminate.
    unfold check_phone.
    repeat match goal with
           | |- context [if ?b then _ else _] => destruct b
           end; rewrite ?lookup_set_error_eq; try reflexivity;
      rewrite check_confirmPassword_other, check_fullName_other,
        check_password_other, check_email_other by discriminate; reflexivity.
Qed.

End ErrorEntries.

(** X12. The errors stored by [validateForm] are string messages under the
    five field names only, never [undefined]; in login mode only the email
    and password names can occur. *)
Theorem validateForm_entries (W : Type) (h : Handler W) (w : W) (st : State)
    (k : string) (v : option jsstring) :
  errors (commit (trace_of (exec h (validateForm st) w)) st) !! k = Some v ->
  (exists m, v = Some m) /\
  In k field_names /\
  (isLogin st = true -> k = "email"%string \/ k = "password"%string).
Proof.
  destruct (@all_runs_exec _ _ _ _ h w (validateForm_runs st)) as (_ & E).
  rewrite E. apply newErrors_entries.
Qed.

Lemma validateForm_entries_witness :
  In "email"%string field_names.
Proof.
  refine (proj1 (proj2 (@validateForm_entries unit quietWorld tt pending_register_state
            "email"%string
            (Some (lit "Please wait while we check email availability")) _))).
  vm_compute. reflexivity.
Defined.

(** X13. In register mode [validateForm] returns [true] exactly when: the
    email is non-empty and well formed, its check is not running and its
    verdict not negative; the password meets the policy; the full name has
    at least two code units; the confirmation is non-empty and equal to the
    password; the phone, if given, is well formed with a verdict that is
    not negative; and no phone check is running. *)
Theorem validateForm_register (W : Type) (h : Handler W) (w : W) (st : State) :
  isLogin st = false ->
  (result_of (exec h (validateForm st) w) = true <-> registration_acceptable st).
Proof.
  intros Hl.
  destruct (@all_runs_exec _ _ _ _ h w (validateForm_runs st)) as (E & _).
  rewrite E, passes_iff_empty. apply newErrors_empty_register. exact Hl.
Qed.

Lemma validateForm_register_witness :
  registration_acceptable filled_register_state.
Proof.
  apply (@validateForm_register unit quietWorld tt filled_register_state eq_refl).
  vm_compute. reflexivity.
Defined.

(** X14. In login mode [validateForm] returns [true] exactly when the email
    is non-empty and well formed and the password is non-empty. *)
Theorem validateForm_login (W : Type) (h : Handler W) (w : W) (st : State) :
  isLogin st = true ->
  (result_of (exec h (validateForm st) w) = true <-> login_acceptable st).
Proof.
  intros Hl.
  destruct (@all_runs_exec _ _ _ _ h w (validateForm_runs st)) as (E & _).
  rewrite E, passes_iff_empty. apply newErrors_empty_login. exact Hl.
Qed.

Lemma validateForm_login_witness :
  login_acceptable weak_login_state /\
  ~ login_acceptable initialState.
Proof.
  split.
  - apply (@validateForm_login unit quietWorld tt weak_login_state eq_refl).
    vm_compute. reflexivity.
  - intros H.
    apply (@validateForm_login unit quietWorld tt initialState eq_refl) in H.
    vm_compute in H. discriminate.
Defined.

(** X15. In register mode the full name gets "Full name is required" when
    empty, "Full name must be at least 2 characters" when it has one code
    unit and no error otherwise; the confirmation gets "Please confirm your
    password" when empty, "Passwords do not match" when it differs from the
    password and no error when equal. *)
Theorem register_field_rules (st : State) :
  isLogin st = false ->
  newErrors st !! "fullName"%string =
    match FormData.fullName (formData st) with
    | [] => Some (Some (lit "Full name is required"))
    | [_] => Some (Some (lit "Full name must be at least 2 characters"))
    | _ => None
    end /\
  newErrors st !! "confirmPassword"%string =
    match FormData.confirmPassword (formData st) with
    | [] => Some (Some (lit "Please confirm your password"))
    | _ =>
        if str_eqb (FormData.password (formData st))
             (FormData.confirmPassword (formData st))
        then None
        else Some (Some (lit "Passwords do not match"))
    end.
Proof.
  intros Hl. split.
  - rewrite newErrors_fullName by exact Hl. unfold check_fullName.
    destruct (FormData.fullName (formData st)) as [|a [|b s]]; cbn [truthy negb];
      rewrite ?lookup_set_error_eq; reflexivity.
  - rewrite newErrors_confirmPassword by exact Hl. unfold check_confirmPassword.
    destruct (FormData.confirmPassword (formData st)) as [|a s]; cbn [truthy negb].
    + apply lookup_set_error_eq.
    + destruct (str_eqb (FormData.password (formData st)) (a :: s)); cbn [negb].
      * apply lookup_empty.
      * apply lookup_set_error_eq.
Qed.

Lemma register_field_rules_witness :
  newErrors (apply_setter (setFormData (Updater (set_field F_fullName (lit "A"))))
               filled_register_state) !! "fullName"%string
  = Some (Some (lit "Full name must be at least 2 characters")).
Proof.
  apply (proj1 (register_field_rules
           (apply_setter (setFormData (Updater (set_field F_fullName (lit "A"))))
              filled_register_state) eq_refl)).
Defined.

(** X16. In register mode the phone is optional: its entry is the wait
    message while a phone check is flagged as running; otherwise an empty
    phone gives no error, a malformed one "Please enter a valid phone
    number", a well-formed one with a negative verdict the stored message
    of that verdict, and any other no error. *)
Theorem phone_rule (st : State) :
  isLogin st = false ->
  newErrors st !! "phone"%string =
    if Validation.isChecking (phoneValidation st) then
      Some (Some (lit "Please wait while we check phone availability"))
    else
      match FormData.phone (formData st) with
      | [] => None
      | _ =>
          if validatePhone (FormData.phone (formData st)) then
            if isValid_false (phoneValidation st)
            then Some (Some (Validation.message (phoneValidation st)))
            else None
          else Some (Some (lit "Please enter a valid phone number"))
      end.
Proof.
  intros Hl. rewrite newErrors_phone by exact Hl.
  destruct (Validation.isChecking (phoneValidation st)); [reflexivity|].
  unfold check_phone.
  destruct (FormData.phone (formData st)) as [|a s] eqn:E; cbn [truthy].
  - apply lookup_empty.
  - destruct (validatePhone (a :: s)); cbn [negb].
    + destruct (isValid_false (phoneValidation st)).
      * apply lookup_set_error_eq.
      * apply lookup_empty.
    + apply lookup_set_error_eq.
Qed.

Lemma phone_rule_witness :
  newErrors filled_register_state !! "phone"%string = None.
Proof.
  rewrite (phone_rule filled_register_state eq_refl). reflexivity.
Defined.

(** ** Outcomes of a submission *)

Lemma handleSubmit_blocked_state_runs (st : State) :
  newErrors st <> ∅ ->
  all_runs (handleSubmit st) (fun tr _ =>
    signIns tr = [] /\ signUps tr = [] /\ resends tr = [] /\ navigations tr = [] /\
    dialogs tr = [validationErrorDialog] /\
    errors (commit tr st) = newErrors st /\
    formData (commit tr st) = formData st /\
    isLogin (commit tr st) = isLogin st /\
    isLoading (commit tr st) = isLoading st).
Proof.
  intros Hne.
  assert (Hs : (size (newErrors st) =? 0)%nat = false).
  { destruct (size (newErrors st) =? 0)%nat eqn:E; [|reflexivity].
    apply passes_iff_empty in E. contradiction. }
  unfold handleSubmit, validateForm. run_simpl. intros [] [].
  rewrite Hs. run_simpl. intros []. run_simpl.
  repeat (split; [reflexivity|]). reflexivity.
Qed.

(** X17. When [validateForm] finds an error, submitting calls neither the
    identity provider nor the router: the only dialog is the validation
    error, the errors found are stored, and the form data, the mode and the
    loading flag stay as they were. *)
Theorem handleSubmit_blocked (W : Type) (h : Handler W) (w : W) (st : State) :
  result_of (exec h (validateForm st) w) = false ->
  let tr := trace_of (exec h (handleSubmit st) w) in
  signIns tr = [] /\ signUps tr = [] /\ resends tr = [] /\ navigations tr = [] /\
  dialogs tr = [validationErrorDialog] /\
  errors (commit tr st) = newErrors st /\
  formData (commit tr st) = formData st /\
  isLogin (commit tr st) = isLogin st /\
  isLoading (commit tr st) = isLoading st.
Proof.
  intros Hf tr.
  destruct (@all_runs_exec _ _ _ _ h w (validateForm_runs st)) as (E & _).
  rewrite E in Hf.
  assert (Hne : newErrors st <> ∅).
  { intros Hempty. apply passes_iff_empty in Hempty. congruence. }
  exact (@all_runs_exec _ _ _ _ h w (@handleSubmit_blocked_state_runs st Hne)).
Qed.

Lemma handleSubmit_blocked_witness :
  signUps (trace_of (exec quietWorld (handleSubmit pending_register_state) tt)) = [] /\
  signIns (trace_of (exec quietWorld (handleSubmit initialState) tt)) = [].
Proof.
  split.
  - apply (@handleSubmit_blocked unit quietWorld tt pending_register_state).
    vm_compute. reflexivity.
  - apply (@handleSubmit_blocked unit quietWorld tt initialState).
    vm_compute. reflexivity.
Defined.

Lemma handleSubmit_register_runs (st : State) :
  isLogin st = false -> newErrors st = ∅ ->
  all_runs (handleSubmit st) (fun tr _ =>
    (exists origin,
       origins tr = [origin] /\ signUps tr = [signUp_request st origin]) /\
    signIns tr = [] /\ resends tr = [] /\ navigations tr = [] /\
    exists r,
      signUp_answers tr = [r] /\
      isLoading (commit tr st) = false /\
      match AuthResponse.error r with
      | Some e =>
          dialogs tr = [registrationFailedDialog e] /\
          isLogin (commit tr st) = false /\
          formData (commit tr st) = formData st
      | None =>
          dialogs tr = [registrationSuccessDialog] /\
          isLogin (commit tr st) = true /\
          form_cleared (commit tr st)
      end).
Proof.
  intros Hl He.
  assert (Hs : (size (newErrors st) =? 0)%nat = true) by (apply passes_iff_empty, He).
  unfold handleSubmit, validateForm, afterSignUp, resetForm, awaitSwal.
  run_simpl. intros [] [].
  rewrite Hs, Hl. run_all;
    (split; [eexists; split; reflexivity|]);
    (split; [reflexivity|]); (split; [reflexivity|]); (split; [reflexivity|]);
    eexists; (split; [reflexivity|]); (split; [reflexivity|]); cbn;
    (split; [reflexivity|]); (split; [first [reflexivity | exact Hl]|]);
    first [reflexivity | unfold form_cleared; cbn; repeat (split; [reflexivity|]); reflexivity].
Qed.

Lemma handleSubmit_login_outcome_runs (st : State) :
  isLogin st = true -> newErrors st = ∅ ->
  all_runs (handleSubmit st) (fun tr _ =>
    signIns tr = [(FormData.email (formData st), FormData.password (formData st))] /\
    signUps tr = [] /\ origins tr = [] /\
    exists r,
      signIn_answers tr = [r] /\
      isLoading (commit tr st) = false /\
      isLogin (commit tr st) = true /\
      match AuthResponse.error r with
      | None =>
          dialogs tr = [loginSuccessDialog] /\
          navigations tr = [lit "/"] /\
          resends tr = [] /\
          form_cleared (commit tr st)
      | Some e =>
          navigations tr = [] /\
          formData (commit tr st) = formData st /\
          errors (commit tr st) = ∅ /\
          (AuthError.message e = lit "Email not confirmed" ->
           exists confirmed rest,
             swal_answers tr = confirmed :: rest /\
             resends tr = if confirmed then [FormData.email (formData st)] else []) /\
          (AuthError.message e <> lit "Email not confirmed" -> resends tr = [])
      end).
Proof.
  intros Hl He.
  assert (Hs : (size (newErrors st) =? 0)%nat = true) by (apply passes_iff_empty, He).
  unfold handleSubmit, validateForm, afterSignIn, resetForm, awaitSwal, when.
  run_simpl. intros [] [].
  rewrite Hs, Hl. run_all;
    (split; [reflexivity|]); (split; [reflexivity|]); (split; [reflexivity|]);
    eexists; (split; [reflexivity|]); (split; [reflexivity|]);
    (split; [first [reflexivity | exact Hl]|]); cbn [AuthResponse.error].
  all: try (split; [reflexivity|]; split; [reflexivity|]; split; [reflexivity|];
            unfold form_cleared; cbn; repeat (split; [reflexivity|]); reflexivity).
  all: (split; [reflexivity|]); (split; [reflexivity|]); (split; [exact He|]).
  all: match goal with
       | H : str_eqb _ _ = true |- _ =>
           split; [intros _; eexists _, _; split; reflexivity
                  |intros Hne; exfalso; apply Hne, str_eqb_eq, H]
       | H : str_eqb _ _ = false |- _ =>
           split; [intros Hm; apply str_eqb_eq in Hm; rewrite Hm in H; discriminate H
                  |intros _; reflexivity]
       end.
Qed.

(** X18. A registration that passes [validateForm] reads the page origin
    once and makes exactly one sign-up call, with the email, password, full
    name and phone of the form and the redirect address origin + "/auth";
    it makes no sign-in call, no resend and no navigation. *)
Theorem handleSubmit_register_call (W : Type) (h : Handler W) (w : W) (st : State) :
  isLogin st = false -> registration_acceptable st ->
  let tr := trace_of (exec h (handleSubmit st) w) in
  (exists origin,
     origins tr = [origin] /\ signUps tr = [signUp_request st origin]) /\
  signIns tr = [] /\ resends tr = [] /\ navigations tr = [].
Proof.
  intros Hl Hok tr. apply newErrors_empty_register in Hok; [|exact Hl].
  destruct (@all_runs_exec _ _ _ _ h w (@handleSubmit_register_runs st Hl Hok))
    as (H1 & H2 & H3 & H4 & _).
  auto.
Qed.

Lemma handleSubmit_register_call_witness :
  signUps (trace_of (exec quietWorld (handleSubmit filled_register_state) tt)) =
  [signUp_request filled_register_state (lit "http://localhost:5173")].
Proof.
  destruct (@handleSubmit_register_call unit quietWorld tt filled_register_state eq_refl)
    as ((origin & Ho & Hs) & _).
  - apply (@newErrors_empty_register filled_register_state eq_refl).
    vm_compute. reflexivity.
  - vm_compute in Ho. injection Ho as <-. exact Hs.
Defined.

(** X19. After a registration that passes [validateForm], the loading flag
    is cleared whatever the provider answers.  On an error the dialog shows
    the provider's message and the form stays in register mode with its
    data, so the user can retry; on success the success dialog is shown and
    the form is switched to login mode and cleared. *)
Theorem handleSubmit_register_outcome (W : Type) (h : Handler W) (w : W) (st : State) :
  isLogin st = false -> registration_acceptable st ->
  let tr := trace_of (exec h (handleSubmit st) w) in
  exists r,
    signUp_answers tr = [r] /\
    isLoading (commit tr st) = false /\
    match AuthResponse.error r with
    | Some e =>
        dialogs tr = [registrationFailedDialog e] /\
        isLogin (commit tr st) = false /\
        formData (commit tr st) = formData st
    | None =>
        dialogs tr = [registrationSuccessDialog] /\
        isLogin (commit tr st) = true /\
        form_cleared (commit tr st)
    end.
Proof.
  intros Hl Hok tr. apply newErrors_empty_register in Hok; [|exact Hl].
  destruct (@all_runs_exec _ _ _ _ h w (@handleSubmit_register_runs st Hl Hok))
    as (_ & _ & _ & _ & H).
  exact H.
Qed.

Lemma handleSubmit_register_outcome_witness :
  let final :=
    commit (trace_of (exec quietWorld (handleSubmit filled_register_state) tt))
      filled_register_state in
  isLoading final = false.
Proof.
  intros final.
  destruct (@handleSubmit_register_outcome unit quietWorld tt filled_register_state eq_refl)
    as (r & _ & H & _).
  - apply (@newErrors_empty_register filled_register_state eq_refl).
    vm_compute. reflexivity.
  - exact H.
Defined.

(** X20. A login that passes [validateForm] makes exactly one sign-in call,
    with the email and password of the form, and no sign-up call.  When the
    provider reports no error, the success dialog is shown, the loading
    flag is cleared, the form is cleared and the router goes to "/" once;
    no resend is requested. *)
Theorem handleSubmit_login_success (W : Type) (h : Handler W) (w : W) (st : State) :
  isLogin st = true -> login_acceptable st ->
  let tr := trace_of (exec h (handleSubmit st) w) in
  signIns tr = [(FormData.email (formData st), FormData.password (formData st))] /\
  signUps tr = [] /\
  (signIn_answers tr = [{| AuthResponse.error := None |}] ->
   dialogs tr = [loginSuccessDialog] /\
   navigations tr = [lit "/"] /\
   resends tr = [] /\
   isLoading (commit tr st) = false /\
   form_cleared (commit tr st)).
Proof.
  intros Hl Hok tr. apply newErrors_empty_login in Hok; [|exact Hl].
  destruct (@all_runs_exec _ _ _ _ h w (@handleSubmit_login_outcome_runs st Hl Hok))
    as (H1 & H2 & _ & r & Hr & Hld & _ & Hcase).
  fold tr in H1, H2, Hr, Hld, Hcase.
  split; [exact H1|]. split; [exact H2|].
  intros Hans. rewrite Hr in Hans. injection Hans as ->.
  cbn in Hcase. tauto.
Qed.

Lemma handleSubmit_login_success_witness :
  navigations (trace_of (exec quietWorld (handleSubmit weak_login_state) tt)) = [lit "/"].
Proof.
  refine (proj1 (proj2 (proj2 (proj2 (@handleSubmit_login_success unit quietWorld tt
            weak_login_state eq_refl _)) _))).
  - apply (@newErrors_empty_login weak_login_state eq_refl). vm_compute. reflexivity.
  - vm_compute. reflexivity.
Defined.

(** X21. When the provider refuses a login, the router is not called, the
    loading flag is cleared and the form keeps its data.  A verification
    email is requested only when the message is "Email not confirmed" and
    the user pressed the confirm button of the offer, once, for the email
    of the form; for any other message none is requested. *)
Theorem handleSubmit_login_refused (W : Type) (h : Handler W) (w : W) (st : State)
    (e : AuthError.t) :
  isLogin st = true -> login_acceptable st ->
  let tr := trace_of (exec h (handleSubmit st) w) in
  signIn_answers tr = [{| AuthResponse.error := Some e |}] ->
  navigations tr = [] /\
  isLoading (commit tr st) = false /\
  formData (commit tr st) = formData st /\
  (AuthError.message e = lit "Email not confirmed" ->
   exists confirmed rest,
     swal_answers tr = confirmed :: rest /\
     resends tr = if confirmed then [FormData.email (formData st)] else []) /\
  (AuthError.message e <> lit "Email not confirmed" -> resends tr = []).
Proof.
  intros Hl Hok tr Hans. apply newErrors_empty_login in Hok; [|exact Hl].
  destruct (@all_runs_exec _ _ _ _ h w (@handleSubmit_login_outcome_runs st Hl Hok))
    as (_ & _ & _ & r & Hr & Hld & _ & Hcase).
  fold tr in Hr, Hld, Hcase.
  rewrite Hr in Hans. injection Hans as ->. cbn in Hcase. tauto.
Qed.

Lemma handleSubmit_login_refused_witness :
  let refuse :=
    constHandler {| QueryResponse.data := None; QueryResponse.error := None |}
      {| AuthResponse.error :=
           Some {| AuthError.message := lit "Invalid login credentials" |} |} true in
  resends (trace_of (exec refuse (handleSubmit weak_login_state) tt)) = [].
Proof.
  intros refuse.
  refine (proj2 (proj2 (proj2 (proj2 (@handleSubmit_login_refused unit refuse tt
            weak_login_state {| AuthError.message := lit "Invalid login credentials" |}
            eq_refl _ _)))) _).
  - apply (@newErrors_empty_login weak_login_state eq_refl). vm_compute. reflexivity.
  - vm_compute. reflexivity.
  - vm_compute. discriminate.
Defined.

(** ** Switching mode, again *)

Lemma toggleMode_frame_runs (st : State) :
  all_runs (toggleMode st) (fun tr _ =>
    isLoading (commit tr st) = isLoading st /\
    isSocialLoading (commit tr st) = isSocialLoading st /\
    rememberMe (commit tr st) = rememberMe st /\
    dialogs tr = [] /\ queries tr = [] /\ navigations tr = []).
Proof.
  unfold toggleMode, resetForm. run_simpl. intros [] [] [] [] [] [].
  repeat (split; [reflexivity|]). reflexivity.
Qed.

(** X22. The footer link flips the mode and clears the form, errors,
    touched marks and both availability results, without any outside call
    and without touching the loading flags; used twice it brings back the
    first mode, with the form still cleared. *)
Theorem toggleMode_twice (W : Type) (h : Handler W) (w1 w2 : W) (st : State) :
  let s1 := commit (trace_of (exec h (toggleMode st) w1)) st in
  let s2 := commit (trace_of (exec h (toggleMode s1) w2)) s1 in
  isLogin s1 = negb (isLogin st) /\ form_cleared s1 /\
  isLoading s1 = isLoading st /\ isSocialLoading s1 = isSocialLoading st /\
  dialogs (trace_of (exec h (toggleMode st) w1)) = [] /\
  queries (trace_of (exec h (toggleMode st) w1)) = [] /\
  isLogin s2 = isLogin st /\ form_cleared s2.
Proof.
  intros s1 s2.
  destruct (toggleMode_resets h w1 st) as [H1 H2].
  destruct (toggleMode_resets h w2 s1) as [H3 H4].
  destruct (@all_runs_exec _ _ _ _ h w1 (toggleMode_frame_runs st))
    as (F1 & F2 & _ & F4 & F5 & _).
  fold s1 in H1, H2, H3, H4, F1, F2. fold s2 in H3, H4.
  split; [exact H1|]. split; [exact H2|]. split; [exact F1|]. split; [exact F2|].
  split; [exact F4|]. split; [exact F5|]. split; [|exact H4].
  rewrite H3, H1. apply negb_involutive.
Qed.

Lemma resetForm_frame_runs (st : State) :
  all_runs resetForm (fun tr _ =>
    form_cleared (commit tr st) /\
    isLogin (commit tr st) = isLogin st /\
    isLoading (commit tr st) = isLoading st /\
    isSocialLoading (commit tr st) = isSocialLoading st /\
    rememberMe (commit tr st) = rememberMe st /\
    showPassword (commit tr st) = showPassword st /\
    showConfirmPassword (commit tr st) = showConfirmPassword st).
Proof.
  unfold resetForm. run_simpl. intros [] [] [] [] [].
  unfold form_cleared. cbn.
  split; [repeat (split; [reflexivity|]); reflexivity|].
  repeat (split; [reflexivity|]). reflexivity.
Qed.

(** X23. [resetForm] empties the five fields, the error map and the touched
    marks and puts both availability results back to unknown; it keeps the
    mode, the loading flags and the visibility toggles; and resetting a
    second time changes nothing. *)
Theorem resetForm_spec (W : Type) (h : Handler W) (w1 w2 : W) (st : State) :
  let once := commit (trace_of (exec h resetForm w1)) st in
  form_cleared once /\
  isLogin once = isLogin st /\
  isLoading once = isLoading st /\
  isSocialLoading once = isSocialLoading st /\
  rememberMe once = rememberMe st /\
  showPassword once = showPassword st /\
  showConfirmPassword once = showConfirmPassword st /\
  commit (trace_of (exec h resetForm w2)) once = once.
Proof.
  intros once.
  destruct (@all_runs_exec _ _ _ _ h w1 (resetForm_frame_runs st))
    as (H1 & H2 & H3 & H4 & H5 & H6 & H7).
  fold once in H1, H2, H3, H4, H5, H6, H7.
  repeat (split; [assumption|]).
  apply resetForm_idempotent.
Qed.

Lemma tab_runs (st : State) (target : bool) :
  all_runs (when (tabs_enabled st) (call (SetState (setIsLogin (SetTo target)))))
    (fun tr _ =>
       (tabs_enabled st = false -> tr = [] /\ commit tr st = st) /\
       (tabs_enabled st = true ->
        commit tr st = apply_setter (setIsLogin (SetTo target)) st /\
        (isLogin st = target -> commit tr st = st))).
Proof.
  unfold when. destruct (tabs_enabled st); run_simpl.
  - intros []. split; [discriminate|]. intros _. split; [reflexivity|].
    intros <-. destruct st; reflexivity.
  - split; [auto | discriminate].
Qed.

(** X24. The Login and Register tabs do nothing while a submission or a
    social sign-in is in flight.  Otherwise a tab sets the mode to its own
    and changes nothing else (the form data, errors and availability
    results are kept), so clicking the tab of the current mode leaves the
    state as it is. *)
Theorem tabs_spec (W : Type) (h : Handler W) (w : W) (st : State) :
  let login := trace_of (exec h (onClick_loginTab st) w) in
  let register := trace_of (exec h (onClick_registerTab st) w) in
  (isLoading st = true \/ isSocialLoading st <> None ->
   login = [] /\ register = [] /\ commit login st = st /\ commit register st = st) /\
  (isLoading st = false -> isSocialLoading st = None ->
   commit login st = apply_setter (setIsLogin (SetTo true)) st /\
   commit register st = apply_setter (setIsLogin (SetTo false)) st /\
   (isLogin st = true -> commit login st = st) /\
   (isLogin st = false -> commit register st = st)).
Proof.
  intros login register.
  destruct (@all_runs_exec _ _ _ _ h w (tab_runs st true)) as [L1 L2].
  destruct (@all_runs_exec _ _ _ _ h w (tab_runs st false)) as [R1 R2].
  fold (onClick_loginTab st) in L1, L2. fold (onClick_registerTab st) in R1, R2.
  fold login in L1, L2. fold register in R1, R2.
  split.
  - intros Hbusy.
    assert (E : tabs_enabled st = false).
    { unfold tabs_enabled. destruct Hbusy as [-> | Hs]; [reflexivity|].
      destruct (isSocialLoading st); [apply andb_false_r | contradiction]. }
    destruct (L1 E) as [-> ?]. destruct (R1 E) as [-> ?]. auto.
  - intros Hl Hs.
    assert (E : tabs_enabled st = true).
    { unfold tabs_enabled. rewrite Hl, Hs. reflexivity. }
    destruct (L2 E) as [? ?]. destruct (R2 E) as [? ?]. auto.
Qed.

Lemma tabs_spec_witness :
  formData (commit (trace_of (exec quietWorld (onClick_registerTab typed_login_state) tt))
              typed_login_state)
  = formData typed_login_state.
Proof.
  destruct (proj2 (@tabs_spec unit quietWorld tt typed_login_state) eq_refl eq_refl)
    as (_ & -> & _).
  reflexivity.
Defined.

(** ** Social sign-in, the session listener and the landing page *)

Lemma page_all_runs_exec (A W : Type) (p : PageProg A)
    (Q : list PageEvent -> A -> Prop) (h : PageHandler W) (w : W) :
  page_all_runs p Q ->
  Q (page_trace (page_exec h p w)) (fst (fst (page_exec h p w))).
Proof.
  revert Q w. induction p as [a | X e k IH]; simpl; intros Q w H.
  - exact H.
  - destruct (h X e w) as [x w1].
    specialize (IH x _ w1 (H x)).
    destruct (page_exec h (k x) w1) as [[a tr] w2]. exact IH.
Qed.

Lemma starts_with_iff (pat s : jsstring) :
  starts_with pat s = true <-> exists b, s = pat ++ b.
Proof.
  revert s. induction pat as [|p pat IH]; intros s; simpl.
  - split; [eauto | reflexivity].
  - destruct s as [|c s].
    + split; [discriminate | intros (b & E); discriminate].
    + rewrite andb_true_iff, N.eqb_eq, IH. split.
      * intros [-> (b & ->)]. eauto.
      * intros (b & E). injection E as -> ->. eauto.
Qed.

Lemma includes_iff (s pat : jsstring) :
  includes s pat = true <-> exists a b, s = a ++ pat ++ b.
Proof.
  induction s as [|c s IH].
  - simpl. rewrite orb_false_r, starts_with_iff. split.
    + intros (b & E). exists [], b. exact E.
    + intros (a & b & E). destruct a; [eauto|discriminate].
  - cbn [includes]. rewrite orb_true_iff, starts_with_iff, IH. split.
    + intros [(b & E) | (a & b & ->)].
      * exists [], b. exact E.
      * exists (c :: a), b. reflexivity.
    + intros (a & b & E). destruct a as [|x a].
      * left. eauto.
      * right. injection E as -> ->. eauto.
Qed.

Lemma handleSocialAuth_runs (provider : Provider) (st : State) :
  page_all_runs (handleSocialAuth provider) (fun tr _ =>
    hd_error tr = Some (PEv (SetIsSocialLoading (Some provider)) tt) /\
    page_commit tr st = set_isSocialLoading None st /\
    exists origin r,
      origins (form_events tr) = [origin] /\
      oauthCalls tr = [(provider, origin)] /\
      oauth_answers tr = [r] /\
      dialogs (form_events tr) =
        match AuthResponse.error r with
        | Some _ => [socialFailedDialog provider]
        | None => []
        end).
Proof.
  unfold handleSocialAuth. cbn. intros [] origin [[e|]]; cbn.
  - intros [] [] [res] []. split; [reflexivity|]. split; [reflexivity|].
    eexists _, _. repeat (split; [reflexivity|]). reflexivity.
  - intros []. split; [reflexivity|]. split; [reflexivity|].
    eexists _, _. repeat (split; [reflexivity|]). reflexivity.
Qed.

(** X25. A social sign-in sets the social loading flag to the provider
    first and clears it at the end of every run, changing nothing else of
    the state; it reads the page origin and makes exactly one OAuth call,
    for that provider with the origin as redirect address; a dialog (the
    provider's failure dialog) is opened only when the call reports an
    error. *)
Theorem handleSocialAuth_spec (W : Type) (h : PageHandler W) (w : W)
    (provider : Provider) (st : State) :
  let tr := page_trace (page_exec h (handleSocialAuth provider) w) in
  hd_error tr = Some (PEv (SetIsSocialLoading (Some provider)) tt) /\
  page_commit tr st = set_isSocialLoading None st /\
  exists origin r,
    origins (form_events tr) = [origin] /\
    oauthCalls tr = [(provider, origin)] /\
    oauth_answers tr = [r] /\
    dialogs (form_events tr) =
      match AuthResponse.error r with
      | Some _ => [socialFailedDialog provider]
      | None => []
      end.
Proof.
  intros tr. exact (@page_all_runs_exec _ _ _ _ h w (handleSocialAuth_runs provider st)).
Qed.

Lemma onAuthStateChange_other_runs (event : jsstring) (provider : option jsstring) :
  event <> lit "SIGNED_IN" ->
  page_all_runs (onAuthStateChange event provider) (fun tr _ => tr = []).
Proof.
  intros Hne. unfold onAuthStateChange.
  destruct (str_eqb event (lit "INITIAL_SESSION")); [reflexivity|].
  destruct (str_eqb event (lit "SIGNED_IN")) eqn:E; [|reflexivity].
  apply str_eqb_eq in E. contradiction.
Qed.

Lemma onAuthStateChange_signed_in_runs (provider : option jsstring) (st : State) :
  page_all_runs (onAuthStateChange (lit "SIGNED_IN") provider) (fun tr _ =>
    exists hash,
      hashes tr = [hash] /\
      ((exists a b, hash = a ++ lit "type=signup" ++ b) ->
       (exists pathname search,
          path_parts tr = [pathname; search] /\
          replaceStates tr = [pathname ++ search]) /\
       List.length (signOuts tr) = 1%nat /\
       dialogs (form_events tr) = [verifiedDialog] /\
       navigations (form_events tr) = [] /\
       page_commit tr st = apply_setter (setIsLogin (SetTo true)) st) /\
      (~ (exists a b, hash = a ++ lit "type=signup" ++ b) ->
       signOuts tr = [] /\ replaceStates tr = [] /\ page_commit tr st = st /\
       (provider = Some (lit "email") ->
        dialogs (form_events tr) = [] /\ navigations (form_events tr) = []) /\
       (provider <> Some (lit "email") ->
        dialogs (form_events tr) = [socialSuccessDialog] /\
        navigations (form_events tr) = [lit "/"]))).
Proof.
  unfold onAuthStateChange.
  change (str_eqb (lit "SIGNED_IN") (lit "INITIAL_SESSION")) with false.
  change (str_eqb (lit "SIGNED_IN") (lit "SIGNED_IN")) with true.
  cbn. intros hash.
  destruct (includes hash (lit "type=signup")) eqn:Ei.
  - apply includes_iff in Ei.
    cbn. intros pathname search [] [] [] [res] [].
    exists hash. split; [reflexivity|]. split; [|intros Hno; contradiction].
    intros _. split; [eexists _, _; split; reflexivity|].
    repeat (split; [reflexivity|]). reflexivity.
  - assert (Hno : ~ (exists a b, hash = a ++ lit "type=signup" ++ b)).
    { intros H. apply includes_iff in H. congruence. }
    unfold provider_not_email. destruct provider as [p|].
    + destruct (str_eqb p (lit "email")) eqn:Ep; cbn.
      * apply str_eqb_eq in Ep. subst p.
        exists hash. split; [reflexivity|]. split; [intros H; contradiction|].
        intros _. repeat (split; [reflexivity|]).
        split; [intros _; split; reflexivity|]. intros H. contradiction.
      * intros [] [res] []. exists hash. split; [reflexivity|].
        split; [intros H; contradiction|]. intros _.
        repeat (split; [reflexivity|]).
        split; [|intros _; split; reflexivity].
        intros H. injection H as ->. rewrite (proj2 (str_eqb_eq _ _) eq_refl) in Ep.
        discriminate.
    + cbn. intros [] [res] []. exists hash. split; [reflexivity|].
      split; [intros H; contradiction|]. intros _.
      repeat (split; [reflexivity|]).
      split; [discriminate|]. intros _. split; reflexivity.
Qed.

(** X26. The session listener does nothing at all for an event other than
    SIGNED_IN, the initial session included: no call is made and no state
    is changed. *)
Theorem onAuthStateChange_ignores (W : Type) (h : PageHandler W) (w : W)
    (event : jsstring) (provider : option jsstring) :
  event <> lit "SIGNED_IN" ->
  page_trace (page_exec h (onAuthStateChange event provider) w) = [].
Proof.
  intros Hne.
  exact (@page_all_runs_exec _ _ _ _ h w (onAuthStateChange_other_runs provider Hne)).
Qed.

Lemma onAuthStateChange_ignores_witness :
  page_trace (page_exec
    (constPageHandler {| AuthResponse.error := None |} (lit "#type=signup") None)
    (onAuthStateChange (lit "INITIAL_SESSION") None) tt) = [].
Proof.
  apply (@onAuthStateChange_ignores unit). vm_compute. discriminate.
Defined.

(** X27. On a sign-in that comes from an email verification link (the URL
    hash contains "type=signup"), the listener replaces the URL by its path
    and query, signs the user out, shows the verification dialog and puts
    the form in login mode; it never navigates and changes nothing else of
    the state. *)
Theorem onAuthStateChange_verification (W : Type) (h : PageHandler W) (w : W)
    (provider : option jsstring) (st : State) (hash : jsstring) :
  let tr := page_trace (page_exec h (onAuthStateChange (lit "SIGNED_IN") provider) w) in
  hashes tr = [hash] ->
  (exists a b, hash = a ++ lit "type=signup" ++ b) ->
  (exists pathname search,
     path_parts tr = [pathname; search] /\
     replaceStates tr = [pathname ++ search]) /\
  List.length (signOuts tr) = 1%nat /\
  dialogs (form_events tr) = [verifiedDialog] /\
  navigations (form_events tr) = [] /\
  page_commit tr st = apply_setter (setIsLogin (SetTo true)) st.
Proof.
  intros tr Hh Hin.
  destruct (@page_all_runs_exec _ _ _ _ h w (onAuthStateChange_signed_in_runs provider st))
    as (hash' & Hh' & Hyes & _).
  fold tr in Hh', Hyes. rewrite Hh in Hh'. injection Hh' as <-.
  exact (Hyes Hin).
Qed.

Lemma onAuthStateChange_verification_witness :
  let tr := page_trace (page_exec
    (constPageHandler {| AuthResponse.error := None |}
       (lit "#access_token=abc&type=signup") None)
    (onAuthStateChange (lit "SIGNED_IN") (Some (lit "email"))) tt) in
  replaceStates tr = [lit "/auth"] /\ navigations (form_events tr) = [].
Proof.
  intros tr.
  destruct (@onAuthStateChange_verification unit
              (constPageHandler {| AuthResponse.error := None |}
                 (lit "#access_token=abc&type=signup") None)
              tt (Some (lit "email")) initialState
              (lit "#access_token=abc&type=signup") eq_refl)
    as ((pathname & search & Hp & Hr) & _ & _ & Hn & _).
  - exists (lit "#access_token=abc&"), []. reflexivity.
  - split; [|exact Hn]. unfold tr. rewrite Hr.
    vm_compute in Hp. injection Hp as <- <-. reflexivity.
Defined.

(** X28. On any other sign-in the listener signs nobody out and changes no
    state.  For the email provider it does nothing more (that login is
    reported by the submit handler); for any other provider, or when the
    session names none, it shows the success dialog and then goes to
    "/". *)
Theorem onAuthStateChange_sign_in (W : Type) (h : PageHandler W) (w : W)
    (provider : option jsstring) (st : State) (hash : jsstring) :
  let tr := page_trace (page_exec h (onAuthStateChange (lit "SIGNED_IN") provider) w) in
  hashes tr = [hash] ->
  ~ (exists a b, hash = a ++ lit "type=signup" ++ b) ->
  signOuts tr = [] /\ replaceStates tr = [] /\ page_commit tr st = st /\
  (provider = Some (lit "email") ->
   dialogs (form_events tr) = [] /\ navigations (form_events tr) = []) /\
  (provider <> Some (lit "email") ->
   dialogs (form_events tr) = [socialSuccessDialog] /\
   navigations (form_events tr) = [lit "/"]).
Proof.
  intros tr Hh Hno.
  destruct (@page_all_runs_exec _ _ _ _ h w (onAuthStateChange_signed_in_runs provider st))
    as (hash' & Hh' & _ & Hrest).
  fold tr in Hh', Hrest. rewrite Hh in Hh'. injection Hh' as <-.
  exact (Hrest Hno).
Qed.

Lemma onAuthStateChange_sign_in_witness :
  let tr := page_trace (page_exec
    (constPageHandler {| AuthResponse.error := None |} [] None)
    (onAuthStateChange (lit "SIGNED_IN") (Some (lit "google"))) tt) in
  navigations (form_events tr) = [lit "/"].
Proof.
  intros tr.
  destruct (@onAuthStateChange_sign_in unit
              (constPageHandler {| AuthResponse.error := None |} [] None)
              tt (Some (lit "google")) initialState [] eq_refl)
    as (_ & _ & _ & _ & Hsocial).
  - intros H. apply includes_iff in H. vm_compute in H. discriminate.
  - apply Hsocial. vm_compute. discriminate.
Defined.

Lemma scrollToSection_runs (id : jsstring) :
  page_all_runs (scrollToSection id) (fun tr _ =>
    exists found,
      element_lookups tr = [(id, found)] /\
      scrolls tr =
        match found with
        | Some el => [(el, lit "smooth")]
        | None => []
        end).
Proof.
  unfold scrollToSection. cbn. intros [el|]; cbn.
  - intros []. eexists. split; reflexivity.
  - eexists. split; reflexivity.
Qed.

(** X29. [scrollToSection] looks the given id up once; when the document
    has no such element nothing is scrolled, otherwise the element found,
    and only it, is scrolled into view smoothly. *)
Theorem scrollToSection_spec (W : Type) (h : PageHandler W) (w : W) (id : jsstring) :
  let tr := page_trace (page_exec h (scrollToSection id) w) in
  exists found,
    element_lookups tr = [(id, found)] /\
    scrolls tr =
      match found with
      | Some el => [(el, lit "smooth")]
      | None => []
      end.
Proof.
  intros tr. exact (@page_all_runs_exec _ _ _ _ h w (scrollToSection_runs id)).
Qed.
